(** * DataGenesis client core

    A shallow embedding of the client-side orchestration code of the
    DataGenesis front end:

    - [ApiService] and the [useSystemStatus] hook (health polling and the
      derivation of the overall verdict),
    - the [useWebSocket] hook (reconnect policy of the event channel),
    - the process-log buffers of [DataGenerator] and [RealTimeStatus],
    - the [ModelProvider] store and the save handler of [ModelSelector].

    JavaScript strings are sequences of 16-bit code units, numbers that the
    code handles are integers and are modelled in [Z]; values of type [any]
    are modelled by [JsVal]. *)

From Stdlib Require Import ZArith String Ascii List Lia Bool DecimalString.
From stdpp Require Import base gmap list.
Import ListNotations.

Set Warnings "-register-all".

(* ================================================================== *)
(** ** JavaScript values *)
(* ================================================================== *)

Module Js.

(** A string is the list of its UTF-16 code units. *)
Definition code_unit (c : Z) : Prop := (0 <= c < 65536)%Z.

Definition wf_string (s : list Z) : Prop := Forall code_unit s.

(** A literal of the source, written in ASCII. *)
Definition lit (s : string) : list Z :=
  map (fun a => Z.of_N (N_of_ascii a)) (list_ascii_of_string s).

(** Values of type [any]: what a parsed response body can hold.  Numbers
    are restricted to integers. *)
Inductive JsVal :=
| JUndefined
| JNull
| JBool (b : bool)
| JNum (n : Z)
| JStr (s : list Z)
| JArr (l : list JsVal)
| JObj (m : gmap (list Z) JsVal).

(** What a [throw] carries: an [Error] object with its message, or any
    other value. *)
Inductive Thrown :=
| ErrorObject (message : list Z)
| NonError (v : JsVal).

(** The result of evaluating code that may throw, or of awaiting a
    promise that may reject. *)
Inductive outcome (A : Type) :=
| Ret (a : A)
| Throw (e : Thrown).
Arguments Ret {A} a.
Arguments Throw {A} e.

Definition bind {A B} (o : outcome A) (k : A -> outcome B) : outcome B :=
  match o with
  | Ret a => k a
  | Throw e => Throw e
  end.

(** ToBoolean. *)
Definition truthy (v : JsVal) : bool :=
  match v with
  | JUndefined | JNull => false
  | JBool b => b
  | JNum n => negb (n =? 0)%Z
  | JStr s => match s with [] => false | _ => true end
  | JArr _ | JObj _ => true
  end.

(** [a || b]. *)
Definition or_else (a b : JsVal) : JsVal := if truthy a then a else b.

Definition nullish (v : JsVal) : bool :=
  match v with
  | JUndefined | JNull => true
  | _ => false
  end.

(** Reading the property [k] of a value that is neither [null] nor
    [undefined].  The code reads plain names only, none of them inherited
    from a prototype; on arrays and strings [length] is the one property of
    that kind. *)
Definition get (v : JsVal) (k : list Z) : JsVal :=
  match v with
  | JObj m => default JUndefined (m !! k)
  | JArr l => if decide (k = lit "length") then JNum (Z.of_nat (length l)) else JUndefined
  | JStr s => if decide (k = lit "length") then JNum (Z.of_nat (length s)) else JUndefined
  | _ => JUndefined
  end.

(** [v.k]: a [TypeError] on [null] and [undefined]. *)
Definition member (v : JsVal) (k : list Z) : outcome JsVal :=
  if nullish v
  then Throw (ErrorObject (lit "Cannot read properties of undefined"))
  else Ret (get v k).

(** [v?.k]. *)
Definition opt_member (v : JsVal) (k : list Z) : JsVal :=
  if nullish v then JUndefined else get v k.

(** [v === 'literal']. *)
Definition is_string (v : JsVal) (s : list Z) : bool :=
  match v with
  | JStr s' => bool_decide (s' = s)
  | _ => false
  end.

(** [Object.values(v)] for a value that is neither [null] nor
    [undefined]. *)
Definition Object_values (v : JsVal) : outcome (list JsVal) :=
  match v with
  | JUndefined | JNull =>
      Throw (ErrorObject (lit "Cannot convert undefined or null to object"))
  | JObj m => Ret (map_to_list m).*2
  | JArr l => Ret l
  | JStr s => Ret (map (fun c => JStr [c]) s)
  | JBool _ | JNum _ => Ret []
  end.

End Js.

(** [outcome] is a monad: [x ← a; b] runs [b] when [a] did not throw. *)
Global Instance outcome_ret : MRet Js.outcome := @Js.Ret.
Global Instance outcome_bind : MBind Js.outcome := fun A B k o => Js.bind o k.

(* ================================================================== *)
(** ** ApiService *)
(* ================================================================== *)

Module ApiService.
Import Js.

(** How a request made through the axios instance settles. *)
Inductive AxiosOutcome :=
| AxiosResponse (status : Z) (data : JsVal)
| AxiosError (e : Thrown).

Record HealthResponse := {
  healthy : bool;
  data : JsVal           (* [JUndefined] when the field is absent *)
}.

(** [healthCheck]: a failed request becomes a negative result. *)
Definition healthCheck (o : AxiosOutcome) : HealthResponse :=
  match o with
  | AxiosResponse status d => {| healthy := (status =? 200)%Z; data := d |}
  | AxiosError _ => {| healthy := false; data := JUndefined |}
  end.

(** [getAgentsStatus]: the body of the response, or the error rethrown. *)
Definition getAgentsStatus (o : AxiosOutcome) : outcome JsVal :=
  match o with
  | AxiosResponse _ d => Ret d
  | AxiosError e => Throw e
  end.

(** The requests a poll cycle can issue. *)
Inductive Call := CallHealthCheck | CallGetAgentsStatus.

Global Instance Call_eq_dec : EqDecision Call.
Proof. solve_decision. Defined.

(** [getAIStatus]: the body of the response, or the error rethrown. *)
Definition getAIStatus (o : AxiosOutcome) : outcome JsVal :=
  match o with
  | AxiosResponse _ d => Ret d
  | AxiosError e => Throw e
  end.

(** [generateSyntheticData]: [status] is how [GET /ai/status] settles and
    [post] how a [POST] to a given endpoint settles.  The result, and the
    endpoints posted to. *)
Definition generateSyntheticData (status : AxiosOutcome) (post : list Z -> AxiosOutcome)
  : outcome JsVal * list (list Z) :=
  let aiStatus :=
    match getAIStatus status with
    | Ret d => d
    | Throw _ => JObj {[ lit "is_configured" := JBool false ]}
    end in
  match member aiStatus (lit "is_configured") with
  | Throw e => (Throw e, [])
  | Ret configured =>
      let endpoint :=
        if truthy configured then lit "/generation/start"
        else lit "/generation/generate-local" in
      (match post endpoint with
       | AxiosResponse _ d => Ret d
       | AxiosError e => Throw e
       end, [endpoint])
  end.

(** Whether a request was answered, with the status 200. *)
Definition answered_200 (o : AxiosOutcome) : bool :=
  match o with
  | AxiosResponse status _ => (status =? 200)%Z
  | AxiosError _ => false
  end.

End ApiService.

(* ================================================================== *)
(** ** useSystemStatus *)
(* ================================================================== *)

Module SystemStatus.
Import Js ApiService.
Local Open Scope Z_scope.

Inductive GeminiStatus := online | offline | unknown.
Inductive OverallStatus := healthy | degraded | unhealthy.

Record Backend := {
  backend_healthy : bool;
  lastCheck : option Z;
  responseTime : Z;
  error : option (list Z)
}.

Record Gemini := {
  gemini_status : GeminiStatus;
  model : JsVal;
  quotaPreserved : JsVal;
  apiKeyConfigured : JsVal
}.

Record Agents := {
  active : bool;
  total : JsVal;
  operational : Z;
  details : option JsVal
}.

Record Websockets := {
  connected : bool;
  websockets_status : JsVal
}.

Record Overall := {
  overall_status : OverallStatus;
  message : list Z
}.

Record SystemStatusData := {
  backend : Backend;
  gemini : Gemini;
  agents : Agents;
  websockets : Websockets;
  overall : Overall
}.

Definition set_agents (s : SystemStatusData) (a : Agents) : SystemStatusData :=
  {| backend := backend s; gemini := gemini s; agents := a;
     websockets := websockets s; overall := overall s |}.

Definition set_overall (s : SystemStatusData) (o : Overall) : SystemStatusData :=
  {| backend := backend s; gemini := gemini s; agents := agents s;
     websockets := websockets s; overall := o |}.

Global Instance GeminiStatus_eq_dec : EqDecision GeminiStatus.
Proof. solve_decision. Defined.

Global Instance OverallStatus_eq_dec : EqDecision OverallStatus.
Proof. solve_decision. Defined.

(** The state the hook starts with. *)
Definition initial_status : SystemStatusData :=
  {| backend := {| backend_healthy := false; lastCheck := None;
                   responseTime := 0; error := None |};
     gemini := {| gemini_status := unknown;
                  model := JStr (lit "gemini-2.0-flash-exp");
                  quotaPreserved := JBool false;
                  apiKeyConfigured := JBool false |};
     agents := {| active := false; total := JNum 5; operational := 0;
                  details := None |};
     websockets := {| connected := false;
                      websockets_status := JStr (lit "disconnected") |};
     overall := {| overall_status := unhealthy;
                   message := lit "Checking system status..." |} |}.

(** [healthResponse.data?.services] and [...?.services?.gemini]. *)
Definition services (r : HealthResponse) : JsVal :=
  opt_member (data r) (lit "services").

Definition services_gemini (r : HealthResponse) : JsVal :=
  opt_member (services r) (lit "gemini").

(** The object literal bound to [newStatus]. *)
Definition newStatus (responseTime now : Z) (r : HealthResponse)
  : SystemStatusData :=
  {| backend :=
       {| backend_healthy := ApiService.healthy r;
          lastCheck := Some now;
          responseTime := responseTime;
          error := if ApiService.healthy r then None else Some (lit "Connection failed") |};
     gemini :=
       {| gemini_status :=
            if is_string (opt_member (services_gemini r) (lit "status")) (lit "ready")
            then online else online;
          model := or_else (opt_member (services_gemini r) (lit "model"))
                           (JStr (lit "gemini-2.0-flash-exp"));
          quotaPreserved :=
            or_else (opt_member (services_gemini r) (lit "quota_preserved"))
                    (JBool false);
          apiKeyConfigured :=
            or_else (opt_member (services_gemini r) (lit "api_key_configured"))
                    (JBool false) |};
     agents :=
       {| active := is_string (opt_member (services r) (lit "agents")) (lit "active");
          total := JNum 5;
          operational :=
            if is_string (opt_member (services r) (lit "agents")) (lit "active")
            then 5 else 0;
          details := None |};
     websockets :=
       {| connected :=
            is_string (opt_member (services r) (lit "websockets")) (lit "ready");
          websockets_status :=
            or_else (opt_member (services r) (lit "websockets"))
                    (JStr (lit "unknown")) |};
     overall := {| overall_status := healthy;
                   message := lit "All systems operational" |} |}.

(** [l.filter((agent) => agent.status === 'active')]: the callback throws
    on an element that is [null] or [undefined]. *)
Fixpoint filter_active (l : list JsVal) : outcome (list JsVal) :=
  match l with
  | [] => Ret []
  | agent :: l' =>
      st ← member agent (lit "status");
      rest ← filter_active l';
      Ret (if is_string st (lit "active") then agent :: rest else rest)
  end.

(** The body of [if (agentStatus && agentStatus.agents) { ... }]. *)
Definition with_agent_status (s : SystemStatusData) (agentStatus : JsVal)
  : outcome SystemStatusData :=
  if truthy agentStatus && truthy (get agentStatus (lit "agents")) then
    vals ← Object_values (get agentStatus (lit "agents"));
    act ← filter_active vals;
    Ret (set_agents s
           {| active := is_string (get agentStatus (lit "orchestrator_status"))
                                  (lit "active");
              total := or_else (get agentStatus (lit "total_agents")) (JNum 5);
              operational := Z.of_nat (length act);
              details := Some (get agentStatus (lit "agents")) |})
  else Ret s.

(** The inner [try]/[catch] around the detailed agent probe: a rejected
    request and an exception while reading the answer both leave
    [newStatus] as it was. *)
Definition detailed_agents (s : SystemStatusData) (probe : outcome JsVal)
  : SystemStatusData :=
  match (agentStatus ← probe; with_agent_status s agentStatus) with
  | Ret s' => s'
  | Throw _ => s
  end.

(** "Determine overall system status". *)
Definition determine_overall (s : SystemStatusData) : SystemStatusData :=
  if backend_healthy (backend s)
     && bool_decide (gemini_status (gemini s) = online)
     && active (agents s)
  then set_overall s
         {| overall_status := healthy;
            message := lit "All systems operational - Full AI generation available" |}
  else if backend_healthy (backend s)
  then set_overall s
         {| overall_status := degraded;
            message :=
              if bool_decide (gemini_status (gemini s) = offline)
              then lit "Backend healthy, Gemini offline - Local generation available"
              else lit "Partial functionality available" |}
  else set_overall s
         {| overall_status := unhealthy;
            message := lit "AI system unavailable - Please check connection" |}.

(** The status built in the outer [catch]. *)
Definition errorStatus (now : Z) (e : Thrown) : SystemStatusData :=
  {| backend :=
       {| backend_healthy := false;
          lastCheck := Some now;
          responseTime := 0;
          error := Some (match e with
                         | ErrorObject m => m
                         | NonError _ => lit "Unknown error"
                         end) |};
     gemini := {| gemini_status := offline;
                  model := JStr (lit "gemini-2.0-flash-exp");
                  quotaPreserved := JBool false;
                  apiKeyConfigured := JBool false |};
     agents := {| active := false; total := JNum 5; operational := 0;
                  details := None |};
     websockets := {| connected := false;
                      websockets_status := JStr (lit "error") |};
     overall := {| overall_status := unhealthy;
                   message := lit "System health check failed" |} |}.

(** What the outside world answers during one cycle: the clock readings
    ([Date.now()] at the start and after the health probe, [new Date()]),
    how the awaited health check settles, and how the detailed agent probe
    settles should it be issued. *)
Record CycleInput := {
  startTime : Z;
  afterProbe : Z;
  newDate : Z;
  healthResponse : outcome HealthResponse;
  agentsResponse : outcome JsVal
}.

(** One run of the [try] block of [checkSystemStatus], from the health
    probe to [setStatus]: the published status and the requests issued. *)
Definition cycle (i : CycleInput) : SystemStatusData * list Call :=
  match healthResponse i with
  | Ret r =>
      let s := newStatus (afterProbe i - startTime i) (newDate i) r in
      if ApiService.healthy r
      then (determine_overall (detailed_agents s (agentsResponse i)),
            [CallHealthCheck; CallGetAgentsStatus])
      else (determine_overall s, [CallHealthCheck])
  | Throw e => (errorStatus (newDate i) e, [CallHealthCheck])
  end.

Definition published (i : CycleInput) : SystemStatusData := fst (cycle i).

(** The same cycle with another answer to the agent probe. *)
Definition with_agentsResponse (i : CycleInput) (a : outcome JsVal) : CycleInput :=
  {| startTime := startTime i; afterProbe := afterProbe i; newDate := newDate i;
     healthResponse := healthResponse i; agentsResponse := a |}.

Definition calls_of (i : CycleInput) : list Call := snd (cycle i).

(** *** The hook as a machine

    [checkSystemStatus] runs up to its first [await] when it is invoked
    (by the mount effect, the interval timer or [forceCheck]) and the rest
    when the awaited requests have settled.  The callback is created by
    [useCallback] with the dependency [isChecking]: its guard tests the
    value of [isChecking] that the render which created it saw, not the
    state of the hook.  [setIsChecking] takes effect at the next render,
    so every invocation made through one callback tests the same value,
    whatever was started in between. *)
Record Hook := {
  status : SystemStatusData;
  isChecking : bool;        (* the state that [setIsChecking] writes *)
  inFlight : list Z;        (* start times of the cycles awaiting their probes *)
  issued : list Call        (* every request issued so far, oldest first *)
}.

Definition initial : Hook :=
  {| status := initial_status; isChecking := false; inFlight := []; issued := [] |}.

(** An invocation, at time [now], of a [checkSystemStatus] created by a
    render that saw [isChecking = captured]: the guard, then
    [setIsChecking(true)] and the health probe. *)
Definition checkSystemStatus (captured : bool) (now : Z) (h : Hook) : Hook :=
  if captured then h
  else {| status := status h;
          isChecking := true;
          inFlight := inFlight h ++ [now];
          issued := issued h ++ [CallHealthCheck] |}.

(** [forceCheck] wraps the [checkSystemStatus] of its render. *)
Definition forceCheck (captured : bool) (now : Z) (h : Hook) : Hook :=
  checkSystemStatus captured now h.

(** What settles a cycle in flight. *)
Record Settlement := {
  s_afterProbe : Z;
  s_newDate : Z;
  s_healthResponse : outcome HealthResponse;
  s_agentsResponse : outcome JsVal
}.

Definition cycle_input (start : Z) (x : Settlement) : CycleInput :=
  {| startTime := start; afterProbe := s_afterProbe x; newDate := s_newDate x;
     healthResponse := s_healthResponse x; agentsResponse := s_agentsResponse x |}.

(** The rest of the cycle in flight of rank [k], the oldest having rank 0:
    [setStatus] and, in [finally], [setIsChecking(false)].  Cycles in
    flight settle in any order. *)
Definition settle (k : nat) (x : Settlement) (h : Hook) : Hook :=
  match inFlight h !! k with
  | None => h
  | Some start =>
      {| status := published (cycle_input start x);
         isChecking := false;
         inFlight := delete k (inFlight h);
         issued := issued h ++ tail (calls_of (cycle_input start x)) |}
  end.

Inductive Event :=
| Invoke (captured : bool) (now : Z)  (* mount effect, timer tick or [forceCheck] *)
| Settle (k : nat) (x : Settlement).

Definition step (h : Hook) (e : Event) : Hook :=
  match e with
  | Invoke captured now => checkSystemStatus captured now h
  | Settle k x => settle k x h
  end.

Definition run (evs : list Event) : Hook := fold_left step evs initial.

(** [agents.operational <= agents.total], for a [total] that is a number. *)
Definition operational_le_total (a : Agents) : bool :=
  match total a with
  | JNum t => operational a <=? t
  | _ => false
  end.

(** A backend that is down decides the overall status. *)
Definition backend_decides (s : SystemStatusData) : Prop :=
  backend_healthy (backend s) = false -> overall_status (overall s) = unhealthy.

(** *** Sample inputs and the conditions the statements use *)

Definition clock (r : outcome HealthResponse) (a : outcome JsVal) : CycleInput :=
  {| startTime := 1000; afterProbe := 1040; newDate := 1041;
     healthResponse := r; agentsResponse := a |}.

Definition network_error : Thrown := ErrorObject (lit "Network Error").

(** The body of [/health] when every service is up. *)
Definition all_up : JsVal :=
  JObj {[ lit "services" :=
            JObj (<[ lit "gemini" := JObj {[ lit "status" := JStr (lit "ready") ]} ]>
                  (<[ lit "agents" := JStr (lit "active") ]>
                   {[ lit "websockets" := JStr (lit "ready") ]})) ]}.

(** The health check after a refused connection. *)
Definition probe_down : CycleInput :=
  clock (Ret (healthCheck (AxiosError network_error))) (Throw network_error).

(** The health check after an answer [203] that carries the usual body. *)
Definition probe_non_200 : CycleInput :=
  clock (Ret (healthCheck (AxiosResponse 203 all_up))) (Throw network_error).

(** A healthy backend whose [/agents/status] request fails. *)
Definition agents_probe_fails : CycleInput :=
  clock (Ret (healthCheck (AxiosResponse 200 all_up))) (Throw network_error).

Definition active_agent : JsVal := JObj {[ lit "status" := JStr (lit "active") ]}.

(** Two active agents, [total_agents] one. *)
Definition two_of_one : JsVal :=
  JObj (<[ lit "orchestrator_status" := JStr (lit "active") ]>
        (<[ lit "total_agents" := JNum 1 ]>
         {[ lit "agents" :=
              JObj (<[ lit "domain" := active_agent ]> {[ lit "privacy" := active_agent ]}) ]})).

(** Six active agents, no [total_agents]. *)
Definition six_active : JsVal :=
  JObj {[ lit "agents" :=
            JObj (<[ lit "domain" := active_agent ]>
                  (<[ lit "privacy" := active_agent ]>
                   (<[ lit "bias" := active_agent ]>
                    (<[ lit "relationship" := active_agent ]>
                     (<[ lit "quality" := active_agent ]>
                      {[ lit "schema" := active_agent ]}))))) ]}.

(** Two active agents of five. *)
Definition two_of_five : JsVal :=
  JObj (<[ lit "orchestrator_status" := JStr (lit "active") ]>
        (<[ lit "total_agents" := JNum 5 ]>
         {[ lit "agents" :=
              JObj (<[ lit "domain" := active_agent ]> {[ lit "privacy" := active_agent ]}) ]})).

Definition healthy_with (agentStatus : JsVal) : CycleInput :=
  clock (Ret (healthCheck (AxiosResponse 200 all_up))) (Ret agentStatus).

(** What an answer of [/agents/status] that the cycle uses has to satisfy
    for the bound on the operational agents: no more active entries than
    its total.  An answer that the cycle does not use satisfies it. *)
Definition reports_within_total (agentStatus : JsVal) : bool :=
  if truthy agentStatus && truthy (get agentStatus (lit "agents")) then
    match (vals ← Object_values (get agentStatus (lit "agents")); filter_active vals) with
    | Ret act =>
        match or_else (get agentStatus (lit "total_agents")) (JNum 5) with
        | JNum t => Z.of_nat (length act) <=? t
        | _ => false
        end
    | Throw _ => true
    end
  else true.


(** The convenience getters the hook returns. *)
Definition isHealthy (h : Hook) : bool :=
  bool_decide (overall_status (overall (status h)) = healthy).
Definition isDegraded (h : Hook) : bool :=
  bool_decide (overall_status (overall (status h)) = degraded).
Definition isUnhealthy (h : Hook) : bool :=
  bool_decide (overall_status (overall (status h)) = unhealthy).
Definition backendHealthy (h : Hook) : bool := backend_healthy (backend (status h)).
Definition agentsActive (h : Hook) : bool := active (agents (status h)).

(** A cycle of the hook as it is wired: the health response is what
    [ApiService.healthCheck] makes of the request, the agent response what
    [ApiService.getAgentsStatus] makes of it. *)
Definition wired (t0 t1 t2 : Z) (health agentsReq : AxiosOutcome) : CycleInput :=
  {| startTime := t0; afterProbe := t1; newDate := t2;
     healthResponse := Ret (healthCheck health);
     agentsResponse := getAgentsStatus agentsReq |}.

(** An answer with an entry that is [null] or [undefined]. *)
Definition null_entry : JsVal :=
  JObj (<[ lit "orchestrator_status" := JStr (lit "active") ]>
        {[ lit "agents" := JArr [active_agent; JNull; active_agent] ]}).

(** A health response that reports the AI engine starting and says nothing
    of the agents. *)
Definition gemini_starting : CycleInput :=
  clock (Ret {| ApiService.healthy := true;
                data := JObj {[ lit "services" :=
                          JObj {[ lit "gemini" :=
                            JObj {[ lit "status" := JStr (lit "starting") ]} ]} ]} |})
        (Throw network_error).

End SystemStatus.

(* ================================================================== *)
(** ** useWebSocket *)
(* ================================================================== *)

Module WebSocketHook.
Import Js.
Local Open Scope Z_scope.

Definition maxReconnectAttempts : Z := 3.

(** A timer is named by its rank among the timers set, which is its
    index in [scheduled].  [onclose] stores the timer it sets in
    [reconnectTimeoutRef] over the one stored before, without clearing
    that one, so several timers can be pending at once. *)
Record Channel := {
  isConnected : bool;
  lastMessage : option JsVal;
  error : option (list Z);
  reconnectAttempts : Z;
  reconnectTimeoutRef : option nat;  (* the timer stored last; it may have fired *)
  pendingTimers : list nat;          (* timers set that neither fired nor were cleared *)
  scheduled : list Z;                (* delay of every [setTimeout], oldest first *)
  sockets : nat                      (* [WebSocket] objects created so far *)
}.

Definition initial : Channel :=
  {| isConnected := false; lastMessage := None; error := None;
     reconnectAttempts := 0; reconnectTimeoutRef := None; pendingTimers := [];
     scheduled := []; sockets := 0 |}.

(** [Math.min(1000 * Math.pow(2, attempt), 10000)]. *)
Definition reconnect_delay (attempt : Z) : Z := Z.min (1000 * 2 ^ attempt) 10000.

Definition failed_message : list Z :=
  lit "Failed to establish WebSocket connection after multiple attempts".

(** [connect]: [created] tells whether [new WebSocket(wsUrl)] returned. *)
Definition connect (created : bool) (c : Channel) : Channel :=
  if created
  then {| isConnected := isConnected c; lastMessage := lastMessage c;
          error := error c; reconnectAttempts := reconnectAttempts c;
          reconnectTimeoutRef := reconnectTimeoutRef c;
          pendingTimers := pendingTimers c; scheduled := scheduled c;
          sockets := S (sockets c) |}
  else {| isConnected := isConnected c; lastMessage := lastMessage c;
          error := Some (lit "Failed to create WebSocket connection");
          reconnectAttempts := reconnectAttempts c;
          reconnectTimeoutRef := reconnectTimeoutRef c;
          pendingTimers := pendingTimers c; scheduled := scheduled c;
          sockets := sockets c |}.

Definition onopen (c : Channel) : Channel :=
  {| isConnected := true; lastMessage := lastMessage c; error := None;
     reconnectAttempts := 0; reconnectTimeoutRef := reconnectTimeoutRef c;
     pendingTimers := pendingTimers c; scheduled := scheduled c;
     sockets := sockets c |}.

(** [onmessage]: [parsed] is what [JSON.parse(event.data)] gave, [None]
    when it threw. *)
Definition onmessage (parsed : option JsVal) (c : Channel) : Channel :=
  match parsed with
  | Some m =>
      {| isConnected := isConnected c; lastMessage := Some m; error := error c;
         reconnectAttempts := reconnectAttempts c;
         reconnectTimeoutRef := reconnectTimeoutRef c;
         pendingTimers := pendingTimers c; scheduled := scheduled c;
         sockets := sockets c |}
  | None => c
  end.

Definition onclose (c : Channel) : Channel :=
  if reconnectAttempts c <? maxReconnectAttempts
  then
    let attempts := reconnectAttempts c + 1 in
    let delay := reconnect_delay attempts in
    let timer := length (scheduled c) in
    {| isConnected := false; lastMessage := lastMessage c; error := error c;
       reconnectAttempts := attempts;
       reconnectTimeoutRef := Some timer;
       pendingTimers := pendingTimers c ++ [timer];
       scheduled := scheduled c ++ [delay];
       sockets := sockets c |}
  else
    {| isConnected := false; lastMessage := lastMessage c;
       error := Some failed_message;
       reconnectAttempts := reconnectAttempts c;
       reconnectTimeoutRef := reconnectTimeoutRef c;
       pendingTimers := pendingTimers c; scheduled := scheduled c;
       sockets := sockets c |}.

Definition onerror (c : Channel) : Channel :=
  {| isConnected := isConnected c; lastMessage := lastMessage c;
     error := Some (lit "WebSocket connection error - backend may not be available");
     reconnectAttempts := reconnectAttempts c;
     reconnectTimeoutRef := reconnectTimeoutRef c;
     pendingTimers := pendingTimers c; scheduled := scheduled c;
     sockets := sockets c |}.

(** The timers of a list other than [timer]. *)
Definition without_timer (timer : nat) (timers : list nat) : list nat :=
  filter (fun t => t <> timer) timers.

(** The callback given to [setTimeout] runs for the timer [timer], if it
    is pending: it is no longer pending and [connect] is called.  The
    reference is left as it is. *)
Definition timer_fires (timer : nat) (created : bool) (c : Channel) : Channel :=
  if bool_decide (timer ∈ pendingTimers c)
  then
    connect created
      {| isConnected := isConnected c; lastMessage := lastMessage c;
         error := error c; reconnectAttempts := reconnectAttempts c;
         reconnectTimeoutRef := reconnectTimeoutRef c;
         pendingTimers := without_timer timer (pendingTimers c);
         scheduled := scheduled c; sockets := sockets c |}
  else c.

(** [disconnect]: [clearTimeout] of the timer stored in the reference, and
    of no other; the close of the socket arrives as a later [onclose]. *)
Definition disconnect (c : Channel) : Channel :=
  match reconnectTimeoutRef c with
  | Some timer =>
      {| isConnected := isConnected c; lastMessage := lastMessage c;
         error := error c; reconnectAttempts := reconnectAttempts c;
         reconnectTimeoutRef := reconnectTimeoutRef c;
         pendingTimers := without_timer timer (pendingTimers c);
         scheduled := scheduled c; sockets := sockets c |}
  | None => c
  end.

Inductive Event :=
| Connect (created : bool)
| Open
| Message (parsed : option JsVal)
| Close
| Error
| TimerFires (timer : nat) (created : bool)
| Disconnect.

Definition step (c : Channel) (e : Event) : Channel :=
  match e with
  | Connect created => connect created c
  | Open => onopen c
  | Message parsed => onmessage parsed c
  | Close => onclose c
  | Error => onerror c
  | TimerFires timer created => timer_fires timer created c
  | Disconnect => disconnect c
  end.

Definition run (evs : list Event) : Channel := fold_left step evs initial.

Definition is_close (e : Event) : bool :=
  match e with Close => true | _ => false end.

Definition is_open (e : Event) : bool :=
  match e with Open => true | _ => false end.

(** The number of [onclose] events of a trace. *)
Definition closes (evs : list Event) : nat := length (filter (fun e => is_close e = true) evs).

(** No socket of the trace opened. *)
Definition no_open (evs : list Event) : Prop := Forall (fun e => is_open e = false) evs.

(** The terminal state of the channel. *)
Definition failed (c : Channel) : Prop := error c = Some failed_message.

(** *** Sample traces *)

(** A connection attempt that fails: the error event, then the close. *)
Definition first_failure : list Event := [Connect true; Error; Close].

(** The reconnection of the timer [timer], which fails too. *)
Definition next_failure (timer : nat) : list Event := [TimerFires timer true; Error; Close].

Definition three_failures : list Event :=
  first_failure ++ next_failure 0 ++ next_failure 1.

Definition four_failures : list Event := three_failures ++ next_failure 2.

(** A connection that opened and was lost, and three reconnections that
    failed. *)
Definition lost_connection : list Event := [Connect true; Open].

Definition failures_after_loss : list Event :=
  [Close] ++ next_failure 0 ++ next_failure 1 ++ [TimerFires 2 true; Error].

(** The socket of a first mount closes after the second mount has
    connected, and the socket of the second mount fails: two timers are
    pending, the reference holds the second. *)
Definition overlapping_timers : list Event :=
  [Connect true; Disconnect; Connect true; Close; Close].

(** *** Views of a trace *)

Definition is_message (e : Event) : bool :=
  match e with Message _ => true | _ => false end.

Definition is_connect (e : Event) : bool :=
  match e with Connect _ => true | _ => false end.

(** The trace without its [onmessage] events. *)
Definition without_messages (evs : list Event) : list Event :=
  filter (fun e => is_message e = false) evs.

(** The number of calls of [connect] made by the mount effect. *)
Definition connects (evs : list Event) : nat :=
  length (filter (fun e => is_connect e = true) evs).

(** Whether the last [onopen] or [onclose] of the trace is an [onopen]. *)
Fixpoint last_is_open (acc : bool) (evs : list Event) : bool :=
  match evs with
  | [] => acc
  | Open :: evs' => last_is_open true evs'
  | Close :: evs' => last_is_open false evs'
  | _ :: evs' => last_is_open acc evs'
  end.

(** The channel with [lastMessage] put aside. *)
Definition connection_state (c : Channel)
  : bool * option (list Z) * Z * option nat * list nat * list Z * nat :=
  (isConnected c, error c, reconnectAttempts c, reconnectTimeoutRef c,
   pendingTimers c, scheduled c, sockets c).

(** The number of timers pending. *)
Definition pending (c : Channel) : nat := length (pendingTimers c).

End WebSocketHook.

(* ================================================================== *)
(** ** Process-log buffers *)
(* ================================================================== *)

Module ProcessLogs.
Local Open Scope Z_scope.

Section Buffer.
Context {A : Type}.

(** [l.slice(start)]. *)
Definition slice (start : Z) (l : list A) : list A :=
  let len := Z.of_nat (length l) in
  let k := if start <? 0 then Z.max (len + start) 0 else Z.min start len in
  drop (Z.to_nat k) l.

(** [DataGenerator]: [[...prev, logEntry].slice(-50)]. *)
Definition DataGenerator_setProcessLogs (prev : list A) (logEntry : A) : list A :=
  slice (-50) (prev ++ [logEntry]).

(** [RealTimeStatus]: [[...prev, data].slice(-20)]. *)
Definition RealTimeStatus_setProcessLogs (prev : list A) (data : A) : list A :=
  slice (-20) (prev ++ [data]).

(** What the components do to their buffer: append an entry, or
    [setProcessLogs([])]. *)
Inductive Op :=
| Append (entry : A)
| Clear.

Definition apply (add : list A -> A -> list A) (buf : list A) (o : Op) : list A :=
  match o with
  | Append entry => add buf entry
  | Clear => []
  end.

(** The buffer after a sequence of operations, from the empty buffer
    the components start with. *)
Definition buffer (add : list A -> A -> list A) (ops : list Op) : list A :=
  fold_left (apply add) ops [].

End Buffer.

Arguments Op : clear implicits.


(** What [AIProcessLogger] shows of the logs it is given: [logs.slice(-10)]. *)
Definition AIProcessLogger_shown {A : Type} (logs : list A) : list A := slice (-10) logs.

End ProcessLogs.

(* ================================================================== *)
(** ** JSON text of objects with string members *)
(* ================================================================== *)

Module Json.
Import Js.
Local Open Scope Z_scope.

(** An object whose properties all hold strings, in property order. *)
Definition Obj : Type := list (list Z * list Z).

(** [o[k] = v]: an existing property keeps its place. *)
Fixpoint obj_set (o : Obj) (k v : list Z) : Obj :=
  match o with
  | [] => [(k, v)]
  | (k', v') :: o' =>
      if decide (k' = k) then (k', v) :: o' else (k', v') :: obj_set o' k v
  end.

Definition is_high_surrogate (c : Z) : bool := (55296 <=? c) && (c <=? 56319).
Definition is_low_surrogate (c : Z) : bool := (56320 <=? c) && (c <=? 57343).
Definition is_surrogate (c : Z) : bool := (55296 <=? c) && (c <=? 57343).

(** The lower-case hexadecimal digit of a value below 16. *)
Definition hex_digit (n : Z) : Z := if n <? 10 then 48 + n else 87 + n.

Definition hex_value (c : Z) : option Z :=
  if (48 <=? c) && (c <=? 57) then Some (c - 48)
  else if (97 <=? c) && (c <=? 102) then Some (c - 87)
  else if (65 <=? c) && (c <=? 70) then Some (c - 55)
  else None.

(** [\uXXXX]. *)
Definition unicode_escape (c : Z) : list Z :=
  [92; 117; hex_digit (c / 4096); hex_digit (c / 256 mod 16);
   hex_digit (c / 16 mod 16); hex_digit (c mod 16)].

(** How [JSON.stringify] writes one code point that is a single code
    unit: the short escapes, [\uXXXX] for the other control characters and
    for a surrogate that stands alone, the unit itself otherwise. *)
Definition escape (c : Z) : list Z :=
  if c =? 8 then [92; 98]
  else if c =? 9 then [92; 116]
  else if c =? 10 then [92; 110]
  else if c =? 12 then [92; 102]
  else if c =? 13 then [92; 114]
  else if c =? 34 then [92; 34]
  else if c =? 92 then [92; 92]
  else if (c <? 32) || is_surrogate c then unicode_escape c
  else [c].

(** The characters of a quoted string; a surrogate pair is one code point
    and is written as it is. *)
Fixpoint quote_units (s : list Z) : list Z :=
  match s with
  | [] => []
  | c :: s' =>
      match s' with
      | d :: s'' =>
          if is_high_surrogate c && is_low_surrogate d
          then c :: d :: quote_units s''
          else escape c ++ quote_units s'
      | [] => escape c
      end
  end.

Definition quote (s : list Z) : list Z := 34 :: quote_units s ++ [34].

Definition member_text (kv : list Z * list Z) : list Z :=
  quote (fst kv) ++ 58 :: quote (snd kv).

Fixpoint members_text (o : Obj) : list Z :=
  match o with
  | [] => []
  | [kv] => member_text kv
  | kv :: o' => member_text kv ++ 44 :: members_text o'
  end.

(** [JSON.stringify(o)]. *)
Definition stringify (o : Obj) : list Z := 123 :: members_text o ++ [125].

(** The character an escape letter stands for. *)
Definition unescape (e : Z) : option Z :=
  if e =? 34 then Some 34
  else if e =? 92 then Some 92
  else if e =? 47 then Some 47
  else if e =? 98 then Some 8
  else if e =? 102 then Some 12
  else if e =? 110 then Some 10
  else if e =? 114 then Some 13
  else if e =? 116 then Some 9
  else None.

Definition cons_to (c : Z) (r : option (list Z * list Z)) : option (list Z * list Z) :=
  match r with
  | Some (s, rest) => Some (c :: s, rest)
  | None => None
  end.

(** The characters of a string after its opening quote: the string read
    and the text that follows the closing quote. *)
Fixpoint string_body (t : list Z) : option (list Z * list Z) :=
  match t with
  | [] => None
  | c :: t' =>
      if c =? 34 then Some ([], t')
      else if c =? 92 then
        match t' with
        | [] => None
        | e :: t'' =>
            if e =? 117 then
              match t'' with
              | h1 :: h2 :: h3 :: h4 :: t4 =>
                  match hex_value h1, hex_value h2, hex_value h3, hex_value h4 with
                  | Some a, Some b, Some x, Some y =>
                      cons_to (4096 * a + 256 * b + 16 * x + y) (string_body t4)
                  | _, _, _, _ => None
                  end
              | _ => None
              end
            else
              match unescape e with
              | Some u => cons_to u (string_body t'')
              | None => None
              end
        end
      else if c <? 32 then None
      else cons_to c (string_body t')
  end.

Definition is_ws (c : Z) : bool :=
  (c =? 32) || (c =? 9) || (c =? 10) || (c =? 13).

Fixpoint skip_ws (t : list Z) : list Z :=
  match t with
  | c :: t' => if is_ws c then skip_ws t' else t
  | [] => []
  end.

(** A string, after white space. *)
Definition string_token (t : list Z) : option (list Z * list Z) :=
  match skip_ws t with
  | 34 :: t' => string_body t'
  | _ => None
  end.

(** The members of an object after its opening brace, added to [acc]. *)
Fixpoint members (fuel : nat) (t : list Z) (acc : Obj) : option Obj :=
  match fuel with
  | O => None
  | S fuel' =>
      match string_token t with
      | None => None
      | Some (k, t1) =>
          match skip_ws t1 with
          | 58 :: t2 =>
              match string_token t2 with
              | None => None
              | Some (v, t3) =>
                  match skip_ws t3 with
                  | 44 :: t4 => members fuel' t4 (obj_set acc k v)
                  | 125 :: t4 =>
                      match skip_ws t4 with
                      | [] => Some (obj_set acc k v)
                      | _ => None
                      end
                  | _ => None
                  end
              end
          | _ => None
          end
      end
  end.

(** [JSON.parse(t)] on the texts of objects with string members; [None]
    is the [SyntaxError].  Texts that hold values of other kinds are
    outside this model and also yield [None]. *)
Definition parse (t : list Z) : option Obj :=
  match skip_ws t with
  | 123 :: t1 =>
      match skip_ws t1 with
      | 125 :: t2 =>
          match skip_ws t2 with
          | [] => Some []
          | _ => None
          end
      | _ => members (length t1) t1 []
      end
  | _ => None
  end.

Definition wf_obj (o : Obj) : Prop :=
  Forall (fun kv => wf_string (fst kv) /\ wf_string (snd kv)) o.

(** The object built by setting the properties of [o] in turn. *)
Definition rebuild (o acc : Obj) : Obj :=
  fold_left (fun a kv => obj_set a (fst kv) (snd kv)) o acc.

End Json.

(* ================================================================== *)
(** ** ModelProvider *)
(* ================================================================== *)

Module ModelProvider.
Import Js Json.
Local Open Scope Z_scope.

Record ModelConfig := {
  provider : list Z;
  model : list Z;
  apiKey : list Z;
  endpoint : option (list Z)
}.

Definition providers : list (list Z) :=
  [lit "gemini"; lit "openai"; lit "anthropic"; lit "ollama"].

Definition wf_config (c : ModelConfig) : Prop :=
  wf_string (provider c) /\ wf_string (model c) /\ wf_string (apiKey c)
  /\ match endpoint c with Some e => wf_string e | None => True end.

(** A configuration the type and the data model admit. *)
Definition valid_config (c : ModelConfig) : Prop :=
  wf_config c /\ provider c ∈ providers
  /\ (provider c <> lit "ollama" -> apiKey c <> []).

(** The object a configuration is at run time. *)
Definition to_object (c : ModelConfig) : Obj :=
  [(lit "provider", provider c); (lit "model", model c); (lit "apiKey", apiKey c)]
  ++ match endpoint c with
     | Some e => [(lit "endpoint", e)]
     | None => []
     end.

Definition storage_key : list Z := lit "datagenesis-model-config".

Record Store := {
  currentModel : option Obj;
  localStorage : gmap (list Z) (list Z)
}.

Definition setModel (config : ModelConfig) (st : Store) : Store :=
  {| currentModel := Some (to_object config);
     localStorage := <[storage_key := stringify (to_object config)]> (localStorage st) |}.

Definition removeModel (st : Store) : Store :=
  {| currentModel := None;
     localStorage := delete storage_key (localStorage st) |}.

(** The load effect: what [currentModel] becomes after mounting over the
    storage [ls]. *)
Definition load (ls : gmap (list Z) (list Z)) : option Obj :=
  match ls !! storage_key with
  | Some saved =>
      match saved with
      | [] => None
      | _ => match parse saved with
             | Some config => Some config
             | None => None
             end
      end
  | None => None
  end.

(** A reload of the page: the memory is lost, the storage is kept, the
    provider mounts again. *)
Definition reload (st : Store) : Store :=
  {| currentModel := load (localStorage st); localStorage := localStorage st |}.

(** *** Sample configurations *)

Definition gemini_config : ModelConfig :=
  {| provider := lit "gemini"; model := lit "gemini-1.5-flash";
     apiKey := lit "AIza\key"; endpoint := None |}.

Definition openai_config : ModelConfig :=
  {| provider := lit "openai"; model := lit "gpt-4";
     apiKey := lit "sk-test"; endpoint := None |}.

Definition anthropic_config : ModelConfig :=
  {| provider := lit "anthropic"; model := lit "claude-3-opus-20240229";
     apiKey := 9 :: 55357 :: 56832 :: 56832 :: lit "key";
     endpoint := None |}.

Definition ollama_config : ModelConfig :=
  {| provider := lit "ollama"; model := lit "llama3:8b";
     apiKey := [];
     endpoint := Some (lit "http://localhost:11434") |}.

Definition openai_no_key : ModelConfig :=
  {| provider := lit "openai"; model := lit "gpt-4";
     apiKey := []; endpoint := None |}.

Definition empty_store : Store := {| currentModel := None; localStorage := ∅ |}.


(** A storage that holds an entry of another component. *)
Definition themed_store : Store :=
  {| currentModel := None; localStorage := {[ lit "theme" := lit "dark" ]} |}.

End ModelProvider.

(* ================================================================== *)
(** ** ModelSelector *)
(* ================================================================== *)

Module ModelSelector.
Import Js ModelProvider.
Local Open Scope Z_scope.

(** White space and line terminators, which [trim] removes. *)
Definition is_space (c : Z) : bool :=
  ((9 <=? c) && (c <=? 13)) || (c =? 32) || (c =? 160) || (c =? 5760)
  || ((8192 <=? c) && (c <=? 8202)) || (c =? 8232) || (c =? 8233)
  || (c =? 8239) || (c =? 8287) || (c =? 12288) || (c =? 65279).

Fixpoint trim_start (s : list Z) : list Z :=
  match s with
  | c :: s' => if is_space c then trim_start s' else s
  | [] => []
  end.

Definition trim (s : list Z) : list Z :=
  rev (trim_start (rev (trim_start s))).

Inductive Status := idle | validating | success | error.

(** The lines [addLog] writes, without their time stamp. *)
Inductive LogLine :=
| LogConfiguring (provider model : list Z)
| LogConfigured
| LogSaved
| LogTesting
| LogTestOk
| LogTestFailed
| LogConfigFailed.

Record ValidationState := {
  isValidating : bool;
  status : Status;
  message : list Z;
  logs : list LogLine
}.

Record Selector := {
  selectedProvider : list Z;
  selectedModel : list Z;
  apiKey : list Z;
  endpoint : list Z;
  validationState : ValidationState
}.

Definition setValidationState (v : ValidationState) (s : Selector) : Selector :=
  {| selectedProvider := selectedProvider s; selectedModel := selectedModel s;
     apiKey := apiKey s; endpoint := endpoint s; validationState := v |}.

(** [addLog]: the last ten lines are kept. *)
Definition addLog (l : LogLine) (s : Selector) : Selector :=
  setValidationState
    {| isValidating := isValidating (validationState s);
       status := status (validationState s);
       message := message (validationState s);
       logs := ProcessLogs.slice (-10) (logs (validationState s) ++ [l]) |} s.

Inductive Call :=
| CallConfigureAI (provider model api_key : list Z) (endpoint : option (list Z))
| CallTestAIConnection.

(** The configuration [handleSave] builds. *)
Definition config_of (s : Selector) : ModelConfig :=
  {| provider := selectedProvider s;
     model := selectedModel s;
     ModelProvider.apiKey := trim (apiKey s);
     ModelProvider.endpoint :=
       if decide (selectedProvider s = lit "ollama") then Some (endpoint s) else None |}.

(** [handleSave], given whether [configureAI] and [testAIConnection]
    resolve: the selector, the store and the requests made. *)
Definition handleSave (configure_ok test_ok : bool) (s : Selector) (st : Store)
  : Selector * Store * list Call :=
  if negb (bool_decide (selectedProvider s = lit "ollama"))
     && bool_decide (trim (apiKey s) = [])
  then
    (setValidationState
       {| isValidating := false; status := error;
          message := lit "Please enter an API key"; logs := [] |} s,
     st, [])
  else
    let config := config_of s in
    let s1 := setValidationState
                {| isValidating := true; status := validating;
                   message := lit "Validating configuration..."; logs := [] |} s in
    let s2 := addLog (LogConfiguring (selectedProvider s) (selectedModel s)) s1 in
    let configure :=
      CallConfigureAI (provider config) (model config)
                      (ModelProvider.apiKey config) (ModelProvider.endpoint config) in
    if configure_ok then
      let s3 := addLog LogConfigured s2 in
      let st' := setModel config st in
      let s4 := addLog LogTesting (addLog LogSaved s3) in
      if test_ok then
        let s5 := addLog LogTestOk s4 in
        (setValidationState
           {| isValidating := false; status := success;
              message := lit "Configuration saved and tested successfully!";
              logs := logs (validationState s5) |} s5,
         st', [configure; CallTestAIConnection])
      else
        let s5 := addLog LogTestFailed s4 in
        (setValidationState
           {| isValidating := false; status := error;
              message := lit "Configuration saved but connection test failed. Please check your credentials.";
              logs := logs (validationState s5) |} s5,
         st', [configure; CallTestAIConnection])
    else
      let s3 := addLog LogConfigFailed s2 in
      (setValidationState
         {| isValidating := false; status := error;
            message := lit "Failed to configure AI service. Please check your credentials.";
            logs := logs (validationState s) |} s3,
       st, [configure]).

(** *** A sample selection *)

Definition openai_selection : Selector :=
  {| selectedProvider := lit "openai"; selectedModel := lit "gpt-4";
     apiKey := []; endpoint := lit "http://localhost:11434";
     validationState := {| isValidating := false; status := idle;
                           message := []; logs := [] |} |}.


(** The check at the head of [handleSave]. *)
Definition passes_validation (s : Selector) : bool :=
  bool_decide (selectedProvider s = lit "ollama")
  || negb (bool_decide (trim (apiKey s) = [])).

Definition wf_selector (s : Selector) : Prop :=
  wf_string (selectedProvider s) /\ wf_string (selectedModel s)
  /\ wf_string (apiKey s) /\ wf_string (endpoint s).

(** A selection of provider [ollama] with no key. *)
Definition ollama_selection : Selector :=
  {| selectedProvider := lit "ollama"; selectedModel := lit "llama3:8b";
     apiKey := lit "  "; endpoint := lit "http://localhost:11434";
     validationState := {| isValidating := false; status := idle;
                           message := []; logs := [] |} |}.

(** A selection of provider [gemini] with a key typed with spaces around. *)
Definition gemini_selection : Selector :=
  {| selectedProvider := lit "gemini"; selectedModel := lit "gemini-1.5-flash";
     apiKey := lit " AIza-key  "; endpoint := lit "http://localhost:11434";
     validationState := {| isValidating := false; status := idle;
                           message := []; logs := [] |} |}.

End ModelSelector.

(* ================================================================== *)
(** ** RealTimeStatus, Layout and the DataGenerator page: health monitors *)
(* ================================================================== *)

Module RealTimeStatus.
Import Js ApiService.

Record BackendStatus := {
  healthy : bool;
  geminiStatus : SystemStatus.GeminiStatus;
  agentsActive : bool;
  lastCheck : option Z
}.

Definition initial : BackendStatus :=
  {| healthy := false; geminiStatus := SystemStatus.unknown;
     agentsActive := false; lastCheck := None |}.

(** [checkHealth]: [health] is how the awaited health check settles, [now]
    what [new Date()] reads. *)
Definition checkHealth (now : Z) (prev : BackendStatus) (health : outcome HealthResponse)
  : BackendStatus :=
  match health with
  | Ret h =>
      {| healthy := ApiService.healthy h;
         geminiStatus :=
           if is_string (opt_member (SystemStatus.services_gemini h) (lit "status"))
                        (lit "ready")
           then SystemStatus.online else SystemStatus.offline;
         agentsActive :=
           is_string (opt_member (SystemStatus.services h) (lit "agents")) (lit "active");
         lastCheck := Some now |}
  | Throw _ =>
      {| healthy := false; geminiStatus := SystemStatus.offline;
         agentsActive := agentsActive prev; lastCheck := Some now |}
  end.

End RealTimeStatus.

Module Layout.
Import Js ApiService.

Inductive BackendStatus := checking | online | offline.

Global Instance BackendStatus_eq_dec : EqDecision BackendStatus.
Proof. solve_decision. Defined.

(** [checkStatus]. *)
Definition checkStatus (health : outcome HealthResponse) : BackendStatus :=
  match health with
  | Ret h => if ApiService.healthy h then online else offline
  | Throw _ => offline
  end.

End Layout.

Module DataGeneratorPage.
Import Js ApiService.

(** The part of the state of the page that its two checks write. *)
Record Page := {
  backendHealthy : option bool;          (* [null] until the first check *)
  geminiStatus : SystemStatus.GeminiStatus;
  aiConfigured : JsVal;
  lastHealthCheck : option Z
}.

Definition initial : Page :=
  {| backendHealthy := None; geminiStatus := SystemStatus.unknown;
     aiConfigured := JBool false; lastHealthCheck := None |}.

(** [checkBackendHealth]. *)
Definition checkBackendHealth (now : Z) (health : outcome HealthResponse) (p : Page) : Page :=
  match health with
  | Ret h =>
      {| backendHealthy := Some (ApiService.healthy h);
         geminiStatus :=
           if truthy (opt_member (SystemStatus.services_gemini h) (lit "status"))
           then (if is_string (get (get (get (data h) (lit "services")) (lit "gemini"))
                                   (lit "status")) (lit "ready")
                 then SystemStatus.online else SystemStatus.online)
           else geminiStatus p;
         aiConfigured := aiConfigured p;
         lastHealthCheck := Some now |}
  | Throw _ =>
      {| backendHealthy := Some false; geminiStatus := SystemStatus.offline;
         aiConfigured := aiConfigured p; lastHealthCheck := Some now |}
  end.

(** [checkAIConfiguration]: [status] is how [getAIStatus] settles. *)
Definition checkAIConfiguration (status : outcome JsVal) (p : Page) : Page :=
  match (s ← status; member s (lit "is_configured")) with
  | Ret configured =>
      {| backendHealthy := backendHealthy p;
         geminiStatus := if truthy configured then SystemStatus.online else geminiStatus p;
         aiConfigured := configured;
         lastHealthCheck := lastHealthCheck p |}
  | Throw _ =>
      {| backendHealthy := backendHealthy p; geminiStatus := geminiStatus p;
         aiConfigured := JBool false; lastHealthCheck := lastHealthCheck p |}
  end.

Inductive Event :=
| HealthChecked (now : Z) (request : AxiosOutcome)
| AIStatusChecked (request : AxiosOutcome).

(** The checks as the page wires them to [ApiService]. *)
Definition step (p : Page) (e : Event) : Page :=
  match e with
  | HealthChecked now request => checkBackendHealth now (Ret (healthCheck request)) p
  | AIStatusChecked request => checkAIConfiguration (getAIStatus request) p
  end.

Definition run (evs : list Event) : Page := fold_left step evs initial.

End DataGeneratorPage.

(* ================================================================== *)
(** ** DataGeneratorService *)
(* ================================================================== *)

Module DataGeneratorService.
Import Js ApiService.
Local Open Scope Z_scope.

Record DatasetGenerationOptions := {
  domain : list Z;
  data_type : list Z;
  sourceData : JsVal;       (* [JUndefined] when absent, as for the next fields *)
  schema : JsVal;
  description : JsVal;
  rowCount : option Z;
  quality_level : JsVal;
  privacy_level : JsVal
}.

Record Config := {
  config_rowCount : Z;
  config_domain : list Z;
  config_data_type : list Z;
  config_quality_level : JsVal;
  config_privacy_level : JsVal
}.

Record Payload := {
  payload_schema : JsVal;
  payload_config : Config;
  payload_description : JsVal;
  payload_sourceData : JsVal
}.

Record Metadata := {
  rowsGenerated : Z;
  columnsGenerated : Z;
  generationTime : JsVal;
  config : Config;
  generationMethod : JsVal;
  aiProvider : JsVal;
  qualityScore : JsVal;
  privacyScore : JsVal;
  biasScore : JsVal;
  agentInsights : JsVal
}.

Record Dataset := {
  data : list JsVal;
  metadata : Metadata
}.

(** [Math.min(options.rowCount || 100, 100)]. *)
Definition capped_rowCount (rowCount : option Z) : Z :=
  Z.min (match rowCount with
         | Some n => if n =? 0 then 100 else n
         | None => 100
         end) 100.

Definition payload_of (options : DatasetGenerationOptions) : Payload :=
  {| payload_schema := or_else (schema options) (JObj ∅);
     payload_config :=
       {| config_rowCount := capped_rowCount (rowCount options);
          config_domain := domain options;
          config_data_type := data_type options;
          config_quality_level := or_else (quality_level options) (JStr (lit "high"));
          config_privacy_level := or_else (privacy_level options) (JStr (lit "maximum")) |};
     payload_description := or_else (description options) (JStr []);
     payload_sourceData := or_else (sourceData options) (JArr []) |}.

(** The error the outer [catch] throws in place of [e]. *)
Definition generation_failed (e : Thrown) : Thrown :=
  ErrorObject
    (lit "Data generation failed: "
     ++ match e with
        | ErrorObject m => m
        | NonError _ => lit "Unknown error"
        end
     ++ lit ". Please check your API configuration or try again later.").

(** [result.data.length > 0 ? Object.keys(result.data[0]).length : 0]. *)
Definition columns_of (rows : list JsVal) : outcome Z :=
  match rows with
  | [] => Ret 0
  | first :: _ => vals ← Object_values first; Ret (Z.of_nat (length vals))
  end.

(** The [try] block after the request, for a response [result]. *)
Definition dataset_of (isoNow : list Z) (p : Payload) (result : JsVal) : outcome Dataset :=
  if negb (truthy result) || negb (truthy (get result (lit "data")))
  then Throw (ErrorObject (lit "Invalid data format received from backend"))
  else
    match get result (lit "data") with
    | JArr rows =>
        columns ← columns_of rows;
        Ret {| data := rows;
               metadata :=
                 {| rowsGenerated := Z.of_nat (length rows);
                    columnsGenerated := columns;
                    generationTime :=
                      or_else (opt_member (get result (lit "metadata")) (lit "generation_time"))
                              (JStr isoNow);
                    config := payload_config p;
                    generationMethod :=
                      or_else (opt_member (get result (lit "metadata")) (lit "generation_method"))
                              (JStr (lit "ai_real_time"));
                    aiProvider :=
                      or_else (opt_member (get result (lit "metadata")) (lit "ai_provider"))
                              (JStr (lit "gemini_2_flash"));
                    qualityScore :=
                      or_else (or_else (get result (lit "quality_score"))
                                       (get result (lit "qualityScore"))) (JNum 0);
                    privacyScore :=
                      or_else (or_else (get result (lit "privacy_score"))
                                       (get result (lit "privacyScore"))) (JNum 0);
                    biasScore :=
                      or_else (or_else (get result (lit "bias_score"))
                                       (get result (lit "biasScore"))) (JNum 0);
                    agentInsights := or_else (get result (lit "agent_insights")) JNull |} |}
    | _ => Throw (ErrorObject (lit "Invalid data format received from backend"))
    end.

(** [generateSyntheticDataset]: [isoNow] is what [new Date().toISOString()]
    reads, [status] and [post] how the requests of
    [ApiService.generateSyntheticData] settle.  The result, and the
    endpoints posted to. *)
Definition generateSyntheticDataset (isoNow : list Z) (options : DatasetGenerationOptions)
    (status : AxiosOutcome) (post : list Z -> AxiosOutcome)
  : outcome Dataset * list (list Z) :=
  let payload := payload_of options in
  if bool_decide (config_domain (payload_config payload) = [])
     || bool_decide (config_data_type (payload_config payload) = [])
  then (Throw (generation_failed (ErrorObject (lit "Domain and data type are required"))), [])
  else
    let sent := generateSyntheticData status post in
    (match (result ← fst sent; dataset_of isoNow payload result) with
     | Ret d => Ret d
     | Throw e => Throw (generation_failed e)
     end, snd sent).

(** *** Sample options and responses *)

(** The options the page sends with its defaults. *)
Definition retail_options : DatasetGenerationOptions :=
  {| domain := lit "retail"; data_type := lit "tabular";
     sourceData := JArr []; schema := JObj {[ lit "name" := JStr (lit "string") ]};
     description := JStr (lit "customers"); rowCount := Some 10000;
     quality_level := JStr (lit "high"); privacy_level := JStr (lit "maximum") |}.

Definition no_domain_options : DatasetGenerationOptions :=
  {| domain := []; data_type := lit "tabular";
     sourceData := JUndefined; schema := JUndefined;
     description := JUndefined; rowCount := None;
     quality_level := JUndefined; privacy_level := JUndefined |}.

(** A response with two rows of one column. *)
Definition two_rows : JsVal :=
  JObj {[ lit "data" := JArr [JObj {[ lit "name" := JStr (lit "Ada") ]};
                              JObj {[ lit "name" := JStr (lit "Alan") ]}] ]}.

End DataGeneratorService.

(* ================================================================== *)
(** ** DataGeneratorService: CSV *)
(* ================================================================== *)

Module Csv.
Import Js Json.
Local Open Scope Z_scope.

(** [s.split(sep)] for a separator of one character. *)
Fixpoint split (sep : Z) (s : list Z) : list (list Z) :=
  match s with
  | [] => [[]]
  | c :: s' =>
      if c =? sep then [] :: split sep s'
      else match split sep s' with
           | field :: fields => (c :: field) :: fields
           | [] => [[c]]
           end
  end.

(** [fields.join(sep)]. *)
Fixpoint join (sep : Z) (fields : list (list Z)) : list Z :=
  match fields with
  | [] => []
  | [field] => field
  | field :: fields' => field ++ sep :: join sep fields'
  end.

(** [s.replace] of every double quote by the empty string. *)
Definition strip_quotes (s : list Z) : list Z := filter (fun c => c <> 34) s.

(** [s.replace] of every double quote by two of them. *)
Definition double_quotes (s : list Z) : list Z :=
  flat_map (fun c => if c =? 34 then [34; 34] else [c]) s.

(** [line.split(',')], every field trimmed and then stripped of its double
    quotes. *)
Definition fields_of (line : list Z) : list (list Z) :=
  map (fun v => strip_quotes (ModelSelector.trim v)) (split 44 line).

(** [row[header] = value], for a value that is a string: the name
    [__proto__] is not made a property. *)
Definition assign (row : Obj) (header value : list Z) : Obj :=
  if decide (header = lit "__proto__") then row else obj_set row header value.

(** The row built by [headers.forEach((header, index) => row[header] =
    values[index])], for as many values as headers. *)
Definition row_of (headers values : list (list Z)) : Obj :=
  fold_left (fun row hv => assign row (fst hv) (snd hv)) (zip headers values) [].

(** The loop over the lines after the first. *)
Definition rows_of (headers : list (list Z)) (lines : list (list Z)) : list Obj :=
  flat_map (fun line =>
              let values := fields_of line in
              if decide (length values = length headers)
              then [row_of headers values] else [])
           lines.

(** [parseCSV]. *)
Definition parseCSV (text : list Z) : outcome (list Obj) :=
  match split 10 (ModelSelector.trim text) with
  | header :: first :: others => Ret (rows_of (fields_of header) (first :: others))
  | _ => Throw (ErrorObject (lit "CSV must have header and data rows"))
  end.

(** A value of a row that is exported. *)
Inductive Cell :=
| CellString (s : list Z)
| CellNumber (n : Z)
| CellBoolean (b : bool)
| CellNull
| CellUndefined.

(** How [join] writes an element that is not a string. *)
Definition cell_text (c : Cell) : list Z :=
  match c with
  | CellString s => s
  | CellNumber n => lit (DecimalString.NilZero.string_of_int (Z.to_int n))
  | CellBoolean true => lit "true"
  | CellBoolean false => lit "false"
  | CellNull | CellUndefined => []
  end.

(** [row[header]]. *)
Definition cell (row : list (list Z * Cell)) (header : list Z) : Cell :=
  match list_find (fun kv => fst kv = header) row with
  | Some (_, kv) => snd kv
  | None => CellUndefined
  end.

(** The value written for [row[header]]: a string between quotes, with its
    quotes doubled; anything else as [join] writes it. *)
Definition exported (c : Cell) : list Z :=
  match c with
  | CellString s => 34 :: double_quotes s ++ [34]
  | _ => cell_text c
  end.

(** [exportData(data, 'csv')]; the rows are in property order. *)
Definition exportData_csv (data : list (list (list Z * Cell))) : list Z :=
  match data with
  | [] => []
  | first :: _ =>
      let headers := map fst first in
      join 10 (join 44 headers
               :: map (fun row => join 44 (map (fun h => exported (cell row h)) headers))
                      data)
  end.

(** A row of strings as a row to export. *)
Definition cells (row : Obj) : list (list Z * Cell) :=
  map (fun kv => (fst kv, CellString (snd kv))) row.

(** A character that a field of a line cannot hold. *)
Definition plain (s : list Z) : Prop :=
  Forall (fun c => c <> 44 /\ c <> 10 /\ c <> 34) s.

(** A table that comes back from its CSV text: at least one row, every
    row with the same property names, which are distinct, not empty, not
    [__proto__], without comma, quote or line feed and without white space
    around, and values without comma, quote or line feed. *)
Definition plain_table (headers : list (list Z)) (rows : list Obj) : Prop :=
  rows <> [] /\ headers <> [] /\ NoDup headers /\ (lit "__proto__" ∉ headers)
  /\ Forall (fun h => h <> [] /\ plain h /\ ModelSelector.trim h = h) headers
  /\ Forall (fun row => map fst row = headers /\ Forall plain (map snd row)) rows.

(** *** A sample table *)

Definition people : list Obj :=
  [[(lit "name", lit "Ada Lovelace"); (lit "born", lit " 1815")];
   [(lit "name", lit "Alan Turing"); (lit "born", [])]].

(** A text with white space around its fields, a line of one field and a
    line of three. *)
Definition ragged : list Z :=
  lit "  a , b" ++ 10 :: lit "1, 2 " ++ 10 :: lit "3" ++ 10 :: lit "4,5,6" ++ 10 :: lit "7,8".

End Csv.

(* ================================================================== *)
(** * Properties *)
(* ================================================================== *)

(** ** The status hook *)

Section StatusFacts.
Import Js ApiService SystemStatus.
Local Open Scope Z_scope.

Lemma determine_overall_backend s :
  backend (determine_overall s) = backend s.
Proof. unfold determine_overall. repeat case_match; reflexivity. Qed.

Lemma determine_overall_agents s :
  agents (determine_overall s) = agents s.
Proof. unfold determine_overall. repeat case_match; reflexivity. Qed.

Lemma determine_overall_status s :
  overall_status (overall (determine_overall s)) =
    if backend_healthy (backend s)
    then if bool_decide (gemini_status (gemini s) = online) && active (agents s)
         then healthy else degraded
    else unhealthy.
Proof.
  unfold determine_overall.
  destruct (backend_healthy (backend s)); simpl; [|reflexivity].
  destruct (bool_decide _ && _); reflexivity.
Qed.

Lemma detailed_agents_cases s probe :
  detailed_agents s probe = s \/
  exists agentStatus vals act,
    probe = Ret agentStatus /\
    truthy agentStatus && truthy (get agentStatus (lit "agents")) = true /\
    Object_values (get agentStatus (lit "agents")) = Ret vals /\
    filter_active vals = Ret act /\
    detailed_agents s probe =
      set_agents s
        {| active := is_string (get agentStatus (lit "orchestrator_status")) (lit "active");
           total := or_else (get agentStatus (lit "total_agents")) (JNum 5);
           operational := Z.of_nat (length act);
           details := Some (get agentStatus (lit "agents")) |}.
Proof.
  unfold detailed_agents.
  destruct probe as [agentStatus|e]; [|left; reflexivity].
  change (mbind _ _) with (with_agent_status s agentStatus).
  unfold with_agent_status.
  destruct (truthy agentStatus && truthy (get agentStatus (lit "agents"))) eqn:Hg;
    [|left; reflexivity].
  destruct (Object_values (get agentStatus (lit "agents"))) as [vals|e] eqn:Hv;
    [|left; reflexivity].
  change (mbind _ (Ret vals)) with
    (act ← filter_active vals; Ret (set_agents s
        {| active := is_string (get agentStatus (lit "orchestrator_status")) (lit "active");
           total := or_else (get agentStatus (lit "total_agents")) (JNum 5);
           operational := Z.of_nat (length act);
           details := Some (get agentStatus (lit "agents")) |})).
  destruct (filter_active vals) as [act|e] eqn:Hf; [|left; reflexivity].
  right. exists agentStatus, vals, act. repeat split; reflexivity || assumption.
Qed.

Lemma detailed_agents_rest s probe :
  backend (detailed_agents s probe) = backend s /\
  gemini (detailed_agents s probe) = gemini s /\
  websockets (detailed_agents s probe) = websockets s.
Proof.
  destruct (detailed_agents_cases s probe) as [->|(a & v & c & _ & _ & _ & _ & ->)];
    repeat split; reflexivity.
Qed.

Lemma gemini_always_online r :
  (if is_string (opt_member (services_gemini r) (lit "status")) (lit "ready")
   then online else online) = online.
Proof. destruct (is_string _ _); reflexivity. Qed.

Lemma published_backend_decides i : backend_decides (published i).
Proof.
  unfold backend_decides, published, cycle.
  destruct (healthResponse i) as [r|e]; [|reflexivity].
  destruct (ApiService.healthy r) eqn:Hh; simpl;
    rewrite determine_overall_status, determine_overall_backend.
  - destruct (detailed_agents_rest
                (newStatus (afterProbe i - startTime i) (newDate i) r)
                (agentsResponse i)) as (-> & _ & _).
    simpl. rewrite Hh. discriminate.
  - simpl. rewrite Hh. reflexivity.
Qed.

Lemma step_status h e :
  status (step h e) = status h \/ exists i, status (step h e) = published i.
Proof.
  destruct e as [captured now|k x]; simpl.
  - left. unfold checkSystemStatus. destruct captured; reflexivity.
  - unfold settle. destruct (inFlight h !! k) as [start|]; [|left; reflexivity].
    right. eexists. reflexivity.
Qed.

Lemma run_snoc evs e : run (evs ++ [e]) = step (run evs) e.
Proof. unfold run. rewrite fold_left_app. reflexivity. Qed.

Lemma run_status evs :
  status (run evs) = initial_status \/ exists i, status (run evs) = published i.
Proof.
  induction evs as [|e evs IH] using rev_ind; [left; reflexivity|].
  rewrite run_snoc.
  destruct (step_status (run evs) e) as [->|Hp]; [exact IH|right; exact Hp].
Qed.

(** The scenarios of the health endpoint: every service up, the AI engine
    starting with no word on the agents, and a health check that rejects. *)
Example all_up_is_healthy :
  overall_status (overall (published agents_probe_fails)) = healthy.
Proof. vm_compute. reflexivity. Qed.

Example gemini_starting_is_degraded :
  overall_status (overall (published
    (clock (Ret {| ApiService.healthy := true;
                   data := JObj {[ lit "services" :=
                             JObj {[ lit "gemini" :=
                               JObj {[ lit "status" := JStr (lit "starting") ]} ]} ]} |})
           (Throw network_error)))) = degraded.
Proof. vm_compute. reflexivity. Qed.

Example rejected_probe_is_unhealthy :
  published (clock (Throw network_error) (Throw network_error))
  = errorStatus 1041 network_error.
Proof. reflexivity. Qed.

(** C1. Whatever the probes answer, a status with [backend.healthy] false
    has the overall status [unhealthy]: this holds of the status a cycle
    publishes, on the normal path and in the outer [catch], and of the
    status the hook holds after any sequence of invocations and
    settlements. *)
Theorem backend_down_is_unhealthy
    (evs : list Event) (i : CycleInput) (s : SystemStatusData) :
  s = published i \/ s = status (run evs) ->
  backend_healthy (backend s) = false ->
  overall_status (overall s) = unhealthy.
Proof.
  intros [->| ->].
  - apply published_backend_decides.
  - destruct (run_status evs) as [->|[j ->]].
    + reflexivity.
    + apply published_backend_decides.
Qed.

(** A cycle whose health check rejects: the hook ends with the backend down
    and the overall status [unhealthy]. *)
Lemma backend_down_is_unhealthy_witness :
  backend_healthy (backend (status (run [Invoke false 0; Settle 0
     {| s_afterProbe := 40; s_newDate := 41;
        s_healthResponse := Throw network_error;
        s_agentsResponse := Throw network_error |}]))) = false
  /\ overall_status (overall (status (run [Invoke false 0; Settle 0
     {| s_afterProbe := 40; s_newDate := 41;
        s_healthResponse := Throw network_error;
        s_agentsResponse := Throw network_error |}]))) = unhealthy.
Proof.
  split; [reflexivity|].
  apply (backend_down_is_unhealthy _ probe_down _ (or_intror eq_refl)).
  reflexivity.
Defined.

(** C2, as stated, fails: after a refused connection the published
    [gemini.status] is [online], and after an answer other than [200] the
    agents are derived from the body as on the healthy path. *)
Lemma unhealthy_probe_counterexample :
  (exists r, healthResponse probe_down = Ret r /\ ApiService.healthy r = false)
  /\ gemini_status (gemini (published probe_down)) <> offline
  /\ (exists r, healthResponse probe_non_200 = Ret r /\ ApiService.healthy r = false)
  /\ active (agents (published probe_non_200)) <> false.
Proof.
  split; [eexists; split; reflexivity|].
  split; [vm_compute; discriminate|].
  split; [eexists; split; reflexivity|].
  vm_compute; discriminate.
Qed.

(** C2, amended. When the health check resolves with [healthy] false, the
    published status has [backend.healthy] false, the error
    ['Connection failed'] and the overall status [unhealthy]; the agent
    probe is not issued and its answer plays no part; the agents are
    derived from the body of the health response, and are inactive with
    none operational when there is no body. *)
Theorem unhealthy_probe_status (i : CycleInput) (r : HealthResponse) :
  healthResponse i = Ret r ->
  ApiService.healthy r = false ->
  backend_healthy (backend (published i)) = false
  /\ error (backend (published i)) = Some (lit "Connection failed")
  /\ overall_status (overall (published i)) = unhealthy
  /\ calls_of i = [CallHealthCheck]
  /\ (forall a, published (with_agentsResponse i a) = published i)
  /\ active (agents (published i))
     = is_string (opt_member (services r) (lit "agents")) (lit "active")
  /\ (data r = JUndefined ->
      active (agents (published i)) = false
      /\ operational (agents (published i)) = 0).
Proof.
  intros Hr Hh. unfold published, calls_of, cycle, with_agentsResponse.
  cbn [healthResponse startTime afterProbe newDate]. rewrite Hr, Hh. simpl.
  rewrite determine_overall_status, determine_overall_backend, determine_overall_agents.
  simpl. rewrite Hh.
  do 6 (split; [reflexivity|]).
  intros Hd. unfold services. rewrite Hd. split; reflexivity.
Qed.

(** The cycle after a refused connection. *)
Lemma unhealthy_probe_status_witness :
  backend_healthy (backend (published probe_down)) = false
  /\ overall_status (overall (published probe_down)) = unhealthy
  /\ calls_of probe_down = [CallHealthCheck].
Proof.
  destruct (unhealthy_probe_status probe_down
              (healthCheck (AxiosError network_error)) eq_refl eq_refl)
    as (H1 & _ & H3 & H4 & _).
  exact (conj H1 (conj H3 H4)).
Defined.

(** C3, as stated, fails: with every service reported up by the health
    check, a failing agent probe leaves the overall status [healthy]. *)
Lemma agents_probe_failure_counterexample :
  (exists r e, healthResponse agents_probe_fails = Ret r
               /\ ApiService.healthy r = true
               /\ agentsResponse agents_probe_fails = Throw e)
  /\ overall_status (overall (published agents_probe_fails)) = healthy
  /\ overall_status (overall (published agents_probe_fails)) <> degraded.
Proof.
  split; [do 2 eexists; repeat split; reflexivity|].
  split; [vm_compute; reflexivity | vm_compute; discriminate].
Qed.

(** C3, amended. When the health check succeeds and the agent probe
    throws, the cycle publishes a status, the agents are those derived
    from the health response, and the overall status is not [unhealthy]:
    it is [healthy] when the health response reports the agents active
    and [degraded] otherwise. *)
Theorem agents_probe_failure_tolerated
    (i : CycleInput) (r : HealthResponse) (e : Thrown) :
  healthResponse i = Ret r ->
  ApiService.healthy r = true ->
  agentsResponse i = Throw e ->
  agents (published i)
    = agents (newStatus (afterProbe i - startTime i) (newDate i) r)
  /\ overall_status (overall (published i)) <> unhealthy
  /\ overall_status (overall (published i))
     = if is_string (opt_member (services r) (lit "agents")) (lit "active")
       then healthy else degraded.
Proof.
  intros Hr Hh Ha. unfold published, cycle. rewrite Hr, Hh, Ha. simpl.
  rewrite determine_overall_status, determine_overall_agents. simpl.
  rewrite Hh. simpl.
  rewrite gemini_always_online. simpl.
  split; [reflexivity|]. split; [|reflexivity].
  destruct (is_string _ _); discriminate.
Qed.

(** A healthy backend with all services up and a failing agent probe. *)
Lemma agents_probe_failure_tolerated_witness :
  agents (published agents_probe_fails)
    = {| active := true; total := JNum 5; operational := 5; details := None |}
  /\ overall_status (overall (published agents_probe_fails)) <> unhealthy.
Proof.
  destruct (agents_probe_failure_tolerated agents_probe_fails
              (healthCheck (AxiosResponse 200 all_up)) network_error
              eq_refl eq_refl eq_refl) as (H1 & H2 & _).
  split; [rewrite H1; vm_compute; reflexivity | exact H2].
Defined.

Lemma primary_agents_bounded rt now r :
  operational_le_total (agents (newStatus rt now r)) = true.
Proof.
  unfold operational_le_total. simpl.
  destruct (is_string _ _); reflexivity.
Qed.

(** When the detailed answer is used, the bound on the published agents is
    the condition on the answer. *)
Lemma detailed_agents_bounded s agentStatus vals act :
  truthy agentStatus && truthy (get agentStatus (lit "agents")) = true ->
  Object_values (get agentStatus (lit "agents")) = Ret vals ->
  filter_active vals = Ret act ->
  operational_le_total
    (agents (set_agents s
       {| active := is_string (get agentStatus (lit "orchestrator_status")) (lit "active");
          total := or_else (get agentStatus (lit "total_agents")) (JNum 5);
          operational := Z.of_nat (length act);
          details := Some (get agentStatus (lit "agents")) |}))
  = reports_within_total agentStatus.
Proof.
  intros Hg Hv Hf. unfold reports_within_total, operational_le_total.
  rewrite Hg, Hv. unfold mbind, outcome_bind, bind. rewrite Hf. reflexivity.
Qed.

(** C10, as stated, fails: the published agents repeat what
    [/agents/status] reports, two operational agents of a total of one, or
    six of the default total of five. *)
Lemma operational_exceeds_total_counterexample :
  agents (published (healthy_with two_of_one))
    = {| active := true; total := JNum 1; operational := 2;
         details := Some (get two_of_one (lit "agents")) |}
  /\ operational_le_total (agents (published (healthy_with two_of_one))) = false
  /\ total (agents (published (healthy_with six_active))) = JNum 5
  /\ operational (agents (published (healthy_with six_active))) = 6
  /\ operational_le_total (agents (published (healthy_with six_active))) = false.
Proof.
  repeat split; vm_compute; reflexivity.
Qed.

(** C10, amended. [agents.operational <= agents.total] holds in every
    published status provided that the answer of [/agents/status], when the
    cycle uses one, lists no more active agents than its [total_agents] (or
    than 5 when [total_agents] is missing or falsy): the agents derived
    from the health response and those of the outer [catch] always satisfy
    it, and the detailed answer is published as reported. *)
Theorem operational_within_total (i : CycleInput) :
  (forall r agentStatus,
      healthResponse i = Ret r ->
      ApiService.healthy r = true ->
      agentsResponse i = Ret agentStatus ->
      reports_within_total agentStatus = true) ->
  operational_le_total (agents (published i)) = true.
Proof.
  intros Hrep. unfold published, cycle.
  destruct (healthResponse i) as [r|e]; simpl; [|reflexivity].
  destruct (ApiService.healthy r) eqn:Hh; simpl; rewrite determine_overall_agents.
  - destruct (detailed_agents_cases
                (newStatus (afterProbe i - startTime i) (newDate i) r)
                (agentsResponse i))
      as [->|(a & vals & act & Ha & Hg & Hv & Hf & ->)].
    + apply primary_agents_bounded.
    + rewrite (detailed_agents_bounded _ a vals act Hg Hv Hf).
      exact (Hrep r a eq_refl Hh Ha).
  - apply primary_agents_bounded.
Qed.

(** An answer with two active agents of five. *)
Lemma operational_within_total_witness :
  operational (agents (published (healthy_with two_of_five))) = 2
  /\ operational_le_total (agents (published (healthy_with two_of_five))) = true.
Proof.
  split; [vm_compute; reflexivity|].
  apply (operational_within_total (healthy_with two_of_five)).
  intros r agentStatus _ _ Heq. injection Heq as <-.
  vm_compute. reflexivity.
Defined.

(** The condition is also necessary: a cycle that uses an answer outside
    it publishes more operational agents than the total. *)
Lemma operational_within_total_only_if (i : CycleInput) r agentStatus :
  healthResponse i = Ret r ->
  ApiService.healthy r = true ->
  agentsResponse i = Ret agentStatus ->
  operational_le_total (agents (published i)) = true ->
  reports_within_total agentStatus = true.
Proof.
  intros Hr Hh Ha. unfold published, cycle. rewrite Hr, Hh. simpl.
  rewrite determine_overall_agents.
  destruct (detailed_agents_cases
              (newStatus (afterProbe i - startTime i) (newDate i) r)
              (agentsResponse i))
    as [Hsame|(a & vals & act & Ha' & Hg & Hv & Hf & ->)].
  - intros _. revert Hsame.
    unfold detailed_agents, with_agent_status, reports_within_total.
    rewrite Ha. unfold mbind, outcome_bind, bind.
    destruct (truthy agentStatus && truthy (get agentStatus (lit "agents")));
      [|reflexivity].
    destruct (Object_values (get agentStatus (lit "agents"))) as [vals|e];
      [|reflexivity].
    destruct (filter_active vals) as [act|e]; [|reflexivity].
    intros Hsame.
    apply (f_equal (fun s => details (agents s))) in Hsame. discriminate.
  - rewrite Ha in Ha'. injection Ha' as <-.
    rewrite (detailed_agents_bounded _ agentStatus vals act Hg Hv Hf).
    trivial.
Qed.

(** A hook with no cycle in flight is not checking.  The converse does
    not hold: a settlement clears [isChecking] while other cycles are
    still in flight. *)
Lemma idle_not_checking evs :
  inFlight (run evs) = [] -> isChecking (run evs) = false.
Proof.
  induction evs as [|e evs IH] using rev_ind; [reflexivity|].
  rewrite run_snoc.
  destruct e as [captured now|k x]; simpl.
  - unfold checkSystemStatus. destruct captured; [exact IH|].
    simpl. intros H. destruct (inFlight (run evs)); discriminate H.
  - unfold settle. destruct (inFlight (run evs) !! k) eqn:Hk; [reflexivity|exact IH].
Qed.

(** C4. The guard of [checkSystemStatus] tests the [isChecking] of the
    render that created the callback.  An invocation through a callback
    that saw [isChecking] true changes nothing.  An invocation through a
    callback that saw it false starts a cycle whatever the hook is doing:
    two invocations through the callback of one render (two calls of
    [forceCheck] before React renders again) both issue a health check,
    the second while [isChecking] is already true and the first cycle is
    in flight, and the two cycles then run together.  So the claim fails
    on the code, against the comment of the guard (prevent concurrent
    checks). *)
Theorem guard_tests_the_captured_value (evs : list Event) (now now' : Z) :
  forceCheck true now (run evs) = run evs
  /\ isChecking (run (evs ++ [Invoke false now])) = true
  /\ inFlight (run (evs ++ [Invoke false now])) = inFlight (run evs) ++ [now]
  /\ issued (run (evs ++ [Invoke false now; Invoke false now']))
     = issued (run evs) ++ [CallHealthCheck; CallHealthCheck]
  /\ inFlight (run (evs ++ [Invoke false now; Invoke false now']))
     = inFlight (run evs) ++ [now; now']
  /\ issued (run [Invoke false 0; Invoke false 5]) = [CallHealthCheck; CallHealthCheck]
  /\ inFlight (run [Invoke false 0; Invoke false 5]) = [0; 5].
Proof.
  split; [reflexivity|].
  rewrite run_snoc. simpl.
  do 2 (split; [reflexivity|]).
  replace (evs ++ [Invoke false now; Invoke false now'])
    with ((evs ++ [Invoke false now]) ++ [Invoke false now'])
    by (rewrite <- app_assoc; reflexivity).
  rewrite !run_snoc. simpl. rewrite <- !app_assoc.
  repeat split; reflexivity.
Qed.

End StatusFacts.

(** ** The event channel *)

Section ChannelFacts.
Import Js WebSocketHook.
Local Open Scope Z_scope.

Lemma channel_run_snoc evs e : run (evs ++ [e]) = step (run evs) e.
Proof. unfold run. rewrite fold_left_app. reflexivity. Qed.

Lemma fold_step_snoc c evs e :
  fold_left step (evs ++ [e]) c = step (fold_left step evs c) e.
Proof. rewrite fold_left_app. reflexivity. Qed.

Lemma run_app before evs : run (before ++ evs) = fold_left step evs (run before).
Proof. unfold run. apply fold_left_app. Qed.

Lemma closes_snoc evs e :
  closes (evs ++ [e]) = (closes evs + if is_close e then 1 else 0)%nat.
Proof.
  unfold closes. rewrite filter_app, length_app.
  destruct e; reflexivity.
Qed.

(** Events other than [onopen] and [onclose] leave the counter and the
    timers set so far as they are, and do not put the failure message. *)
Lemma step_keeps_attempts c e :
  is_open e = false -> is_close e = false ->
  reconnectAttempts (step c e) = reconnectAttempts c
  /\ scheduled (step c e) = scheduled c.
Proof.
  destruct e as [created| |parsed| | |timer created|]; try discriminate; intros _ _; simpl.
  - destruct created; split; reflexivity.
  - destruct parsed; split; reflexivity.
  - split; reflexivity.
  - unfold timer_fires. destruct (bool_decide _); [|split; reflexivity].
    destruct created; split; reflexivity.
  - unfold disconnect. destruct (reconnectTimeoutRef c); split; reflexivity.
Qed.

(** From a channel whose counter is zero, while no socket opens: the
    counter is the number of closes, up to three, and one timer has been
    set for each of them. *)
Lemma failures_from c evs :
  no_open evs ->
  reconnectAttempts c = 0 ->
  reconnectAttempts (fold_left step evs c) = Z.of_nat (Nat.min (closes evs) 3)
  /\ scheduled (fold_left step evs c)
     = scheduled c ++ take (closes evs) [2000; 4000; 8000].
Proof.
  intros Hno Hzero.
  induction evs as [|e evs IH] using rev_ind.
  - simpl. rewrite app_nil_r. split; [exact Hzero | reflexivity].
  - apply Forall_app in Hno as [Hno He]. apply Forall_inv in He.
    destruct (IH Hno) as [Hatt Hsch].
    rewrite fold_step_snoc, closes_snoc.
    destruct (is_close e) eqn:Hcl.
    + destruct e; try discriminate. simpl. unfold onclose.
      rewrite Hatt, Hsch. unfold maxReconnectAttempts.
      destruct (le_lt_dec 3 (closes evs)) as [Hge|Hlt].
      * rewrite !Nat.min_r by lia. rewrite !take_ge by (simpl; lia).
        split; reflexivity.
      * destruct (closes evs) as [|[|[|n]]]; try lia; simpl;
          rewrite <- ?app_assoc; split; reflexivity.
    + destruct (step_keeps_attempts (fold_left step evs c) e He Hcl) as [-> ->].
      rewrite Nat.add_0_r. split; assumption.
Qed.

Lemma failures_invariant evs :
  no_open evs ->
  reconnectAttempts (run evs) = Z.of_nat (Nat.min (closes evs) 3)
  /\ scheduled (run evs) = take (closes evs) [2000; 4000; 8000].
Proof. intros Hno. exact (failures_from initial evs Hno eq_refl). Qed.

(** The counter never leaves the range from 0 to 3. *)
Lemma attempts_range_from c evs :
  0 <= reconnectAttempts c <= 3 ->
  0 <= reconnectAttempts (fold_left step evs c) <= 3.
Proof.
  revert c. induction evs as [|e evs IH]; intros c Hc; [exact Hc|].
  simpl. apply IH.
  destruct e as [created| |parsed| | |timer created|]; simpl.
  - destruct created; exact Hc.
  - lia.
  - destruct parsed; exact Hc.
  - unfold onclose, maxReconnectAttempts.
    destruct (Z.ltb_spec (reconnectAttempts c) 3); simpl; lia.
  - exact Hc.
  - unfold timer_fires. destruct (bool_decide _); [|exact Hc].
    destruct created; exact Hc.
  - unfold disconnect. destruct (reconnectTimeoutRef c); exact Hc.
Qed.

Lemma attempts_range evs : 0 <= reconnectAttempts (run evs) <= 3.
Proof. apply attempts_range_from. simpl. lia. Qed.

(** While no socket opens, the counter only grows: from any channel, three
    closes bring it to three. *)
Lemma attempts_grow c evs :
  no_open evs ->
  0 <= reconnectAttempts c <= 3 ->
  reconnectAttempts (fold_left step evs c)
  = Z.min (reconnectAttempts c + Z.of_nat (closes evs)) 3.
Proof.
  intros Hno Hc.
  induction evs as [|e evs IH] using rev_ind.
  - simpl. unfold closes. simpl. lia.
  - apply Forall_app in Hno as [Hno He]. apply Forall_inv in He.
    specialize (IH Hno).
    rewrite fold_step_snoc, closes_snoc.
    destruct (is_close e) eqn:Hcl.
    + destruct e; try discriminate. simpl. unfold onclose, maxReconnectAttempts.
      destruct (Z.ltb_spec (reconnectAttempts (fold_left step evs c)) 3); simpl; lia.
    + destruct (step_keeps_attempts (fold_left step evs c) e He Hcl) as [-> _].
      rewrite IH. lia.
Qed.

(** Once the counter is three, no timer is set until a socket opens. *)
Lemma exhausted_sets_no_timer c evs :
  no_open evs ->
  reconnectAttempts c = 3 ->
  reconnectAttempts (fold_left step evs c) = 3
  /\ scheduled (fold_left step evs c) = scheduled c.
Proof.
  intros Hno Hc.
  induction evs as [|e evs IH] using rev_ind; [split; [exact Hc|reflexivity]|].
  apply Forall_app in Hno as [Hno He]. apply Forall_inv in He.
  destruct (IH Hno) as [Hatt Hsch].
  rewrite fold_step_snoc.
  destruct (is_close e) eqn:Hcl.
  - destruct e; try discriminate. simpl. unfold onclose.
    rewrite Hatt. simpl. split; [reflexivity | exact Hsch].
  - destruct (step_keeps_attempts (fold_left step evs c) e He Hcl) as [-> ->].
    split; assumption.
Qed.

(** The failure message is there only when the counter is three. *)
Lemma failed_at_three evs : failed (run evs) -> reconnectAttempts (run evs) = 3.
Proof.
  induction evs as [|e evs IH] using rev_ind; [discriminate|].
  rewrite channel_run_snoc. pose proof (attempts_range evs) as Hr.
  unfold failed in *.
  destruct e as [created| |parsed| | |timer created|]; simpl.
  - destruct created; simpl; [exact IH|]. intros H. vm_compute in H. discriminate H.
  - discriminate.
  - destruct parsed; exact IH.
  - unfold onclose, maxReconnectAttempts.
    destruct (Z.ltb_spec (reconnectAttempts (run evs)) 3) as [Hlt|Hge]; simpl;
      intros H; [|lia].
    specialize (IH H). lia.
  - intros H. vm_compute in H. discriminate H.
  - unfold timer_fires. destruct (bool_decide _); [|exact IH].
    destruct created; simpl; [exact IH|]. intros H. vm_compute in H. discriminate H.
  - unfold disconnect. destruct (reconnectTimeoutRef (run evs)); exact IH.
Qed.

(** C5. A run of failures that starts with the counter at zero, which is
    the case at mount and right after every successful open: while no
    socket opens, the delays of the reconnect timers set during the run
    are the first elements of [2000; 4000; 8000], one for each close: the
    k-th is [min (1000 * 2^k) 10000] for the counter k that the close has
    just incremented, and there is never a fourth. *)
Theorem reconnect_delays (before failures : list Event) :
  no_open failures ->
  reconnectAttempts (run before) = 0 ->
  scheduled (run (before ++ failures))
  = scheduled (run before) ++ take (closes failures) [2000; 4000; 8000]
  /\ scheduled (run (before ++ failures))
     = scheduled (run before) ++ map reconnect_delay (take (closes failures) [1; 2; 3])
  /\ (length (scheduled (run (before ++ failures)))
      <= length (scheduled (run before)) + 3)%nat
  /\ reconnectAttempts (run (before ++ failures)) <= maxReconnectAttempts
  /\ ((3 <= closes failures)%nat ->
      scheduled (run (before ++ failures))
      = scheduled (run before) ++ [2000; 4000; 8000])
  /\ reconnectAttempts (run []) = 0
  /\ (forall evs, reconnectAttempts (run (evs ++ [Open])) = 0).
Proof.
  intros Hno Hzero. rewrite run_app.
  destruct (failures_from (run before) failures Hno Hzero) as [Hatt Hsch].
  rewrite Hsch, Hatt. unfold maxReconnectAttempts.
  split; [reflexivity|].
  split; [destruct (closes failures) as [|[|[|[|n]]]]; reflexivity|].
  split; [rewrite length_app, length_take; simpl; lia|].
  split; [lia|].
  split; [intros Hge; rewrite take_ge by (simpl; lia); reflexivity|].
  split; [reflexivity|].
  intros evs. rewrite channel_run_snoc. reflexivity.
Qed.

(** A connection that opened and was lost, then four closes. *)
Lemma reconnect_delays_witness :
  no_open (failures_after_loss ++ [Close])
  /\ closes (failures_after_loss ++ [Close]) = 4%nat
  /\ scheduled (run (lost_connection ++ failures_after_loss ++ [Close]))
     = [2000; 4000; 8000].
Proof.
  assert (Hno : no_open (failures_after_loss ++ [Close])).
  { unfold no_open. repeat constructor. }
  split; [exact Hno|]. split; [reflexivity|].
  destruct (reconnect_delays lost_connection (failures_after_loss ++ [Close]) Hno eq_refl)
    as (H & _).
  rewrite H. reflexivity.
Defined.

(** C6, as stated, fails: the third of three consecutive closes sets the
    timer of the third reconnection, and the channel is not failed. *)
Lemma three_closes_counterexample :
  no_open three_failures
  /\ closes three_failures = 3%nat
  /\ reconnectTimeoutRef (run three_failures) = Some 2%nat
  /\ pendingTimers (run three_failures) = [2%nat]
  /\ scheduled (run three_failures) = [2000; 4000; 8000]
  /\ ~ failed (run three_failures).
Proof.
  split; [unfold no_open; repeat constructor|].
  split; [reflexivity|].
  split; [reflexivity|].
  split; [reflexivity|].
  split; [reflexivity|].
  unfold failed. vm_compute. discriminate.
Qed.

(** C6, amended. Whatever happened before, while no socket opens, a close
    that follows at least three others (the fourth consecutive close, and
    any later one) puts the channel in the failed state and sets no timer,
    and no timer is set afterwards.  In a run that starts with the counter
    at zero, at mount or after a successful open, a close that follows
    fewer than three others sets the timer of the next reconnection,
    leaves the error as it was and the channel not failed. *)
Theorem reconnect_exhaustion (before failures : list Event) :
  no_open failures ->
  ((3 <= closes failures)%nat ->
     failed (onclose (run (before ++ failures)))
     /\ scheduled (onclose (run (before ++ failures)))
        = scheduled (run (before ++ failures))
     /\ pendingTimers (onclose (run (before ++ failures)))
        = pendingTimers (run (before ++ failures))
     /\ reconnectTimeoutRef (onclose (run (before ++ failures)))
        = reconnectTimeoutRef (run (before ++ failures))
     /\ (reconnectAttempts (run before) = 0 ->
         scheduled (run (before ++ failures))
         = scheduled (run before) ++ [2000; 4000; 8000])
     /\ forall more, no_open more ->
          scheduled (run (before ++ failures ++ Close :: more))
          = scheduled (run (before ++ failures)))
  /\ (reconnectAttempts (run before) = 0 ->
      (closes failures < 3)%nat ->
        scheduled (onclose (run (before ++ failures)))
        = scheduled (run (before ++ failures))
          ++ [reconnect_delay (Z.of_nat (closes failures) + 1)]
        /\ reconnectTimeoutRef (onclose (run (before ++ failures)))
           = Some (length (scheduled (run (before ++ failures))))
        /\ pendingTimers (onclose (run (before ++ failures)))
           = pendingTimers (run (before ++ failures))
             ++ [length (scheduled (run (before ++ failures)))]
        /\ error (onclose (run (before ++ failures)))
           = error (run (before ++ failures))
        /\ ~ failed (onclose (run (before ++ failures)))).
Proof.
  intros Hno. split.
  - intros Hn.
    assert (Hthree : reconnectAttempts (run (before ++ failures)) = 3).
    { rewrite run_app.
      rewrite (attempts_grow (run before) failures Hno (attempts_range before)).
      pose proof (attempts_range before). lia. }
    unfold failed, onclose. rewrite Hthree. simpl.
    do 4 (split; [reflexivity|]).
    split.
    + intros Hzero. rewrite run_app.
      destruct (failures_from (run before) failures Hno Hzero) as [_ ->].
      rewrite take_ge by (simpl; lia). reflexivity.
    + intros more Hmore.
      replace (before ++ failures ++ Close :: more)
        with ((before ++ failures) ++ Close :: more)
        by (rewrite <- app_assoc; reflexivity).
      rewrite (run_app (before ++ failures)).
      assert (Hno' : no_open (Close :: more)) by (constructor; [reflexivity|exact Hmore]).
      destruct (exhausted_sets_no_timer (run (before ++ failures)) _ Hno' Hthree)
        as [_ ->].
      reflexivity.
  - intros Hzero Hn.
    assert (Hatt : reconnectAttempts (run (before ++ failures))
                   = Z.of_nat (closes failures)).
    { rewrite run_app.
      destruct (failures_from (run before) failures Hno Hzero) as [-> _]. lia. }
    assert (Hnot : ~ failed (run (before ++ failures))).
    { intros Hf. apply failed_at_three in Hf. lia. }
    unfold failed in *. unfold onclose. rewrite Hatt. unfold maxReconnectAttempts.
    destruct (Z.ltb_spec (Z.of_nat (closes failures)) 3) as [_|Hge]; [|lia].
    simpl. repeat split; try reflexivity. exact Hnot.
Qed.

(** A connection that opened and was lost: the close of the third
    reconnection, after its timer has fired. *)
Lemma reconnect_exhaustion_witness :
  failed (onclose (run (lost_connection ++ failures_after_loss)))
  /\ pendingTimers (onclose (run (lost_connection ++ failures_after_loss))) = []
  /\ scheduled (onclose (run (lost_connection ++ failures_after_loss)))
     = [2000; 4000; 8000].
Proof.
  assert (Hno : no_open failures_after_loss).
  { unfold no_open. repeat constructor. }
  destruct (reconnect_exhaustion lost_connection _ Hno) as [H _].
  assert (Hn : (3 <= closes failures_after_loss)%nat).
  { vm_compute. lia. }
  destruct (H Hn) as (H1 & H2 & H3 & _ & H5 & _).
  split; [exact H1|]. split; [rewrite H3; reflexivity|].
  rewrite H2, (H5 eq_refl). reflexivity.
Defined.

End ChannelFacts.

(** ** The process-log buffers *)

Section BufferFacts.
Import ProcessLogs.
Context {A : Type}.
Implicit Types (l xs : list A) (cap : nat).

(** [slice] with a negative start keeps the last elements. *)
Lemma slice_last cap l :
  (0 < cap)%nat ->
  slice (- Z.of_nat cap) l = drop (length l - cap) l.
Proof.
  intros Hcap. unfold slice.
  destruct (Z.ltb_spec (- Z.of_nat cap) 0) as [_|Hge]; [|lia].
  f_equal. lia.
Qed.

Lemma slice_last_length cap l :
  (0 < cap)%nat -> (length (slice (- Z.of_nat cap) l) <= cap)%nat.
Proof. intros Hcap. rewrite slice_last, length_drop by assumption. lia. Qed.

(** Appending to the last [cap] elements and keeping the last [cap]. *)
Lemma slice_last_snoc cap xs x :
  (0 < cap)%nat ->
  slice (- Z.of_nat cap) (drop (length xs - cap) xs ++ [x])
  = drop (length (xs ++ [x]) - cap) (xs ++ [x]).
Proof.
  intros Hcap. rewrite slice_last by assumption.
  rewrite !length_app, length_drop. simpl.
  destruct (le_lt_dec cap (length xs)) as [Hge|Hlt].
  - replace (length xs - (length xs - cap) + 1 - cap)%nat with 1%nat by lia.
    replace (length xs + 1 - cap)%nat with (S (length xs - cap)) by lia.
    rewrite (drop_app_le xs [x] (S (length xs - cap))) by lia.
    rewrite drop_app_le by (rewrite length_drop; lia).
    rewrite drop_drop. do 2 f_equal. lia.
  - replace (length xs - cap)%nat with 0%nat by lia.
    replace (length xs - 0 + 1 - cap)%nat with 0%nat by lia.
    replace (length xs + 1 - cap)%nat with 0%nat by lia.
    reflexivity.
Qed.

Section Capacity.
Variable cap : nat.
Variable add : list A -> A -> list A.
Hypothesis cap_pos : (0 < cap)%nat.
Hypothesis add_spec : forall prev x, add prev x = slice (- Z.of_nat cap) (prev ++ [x]).

Lemma buffer_snoc ops o : buffer add (ops ++ [o]) = apply add (buffer add ops) o.
Proof. unfold buffer. rewrite fold_left_app. reflexivity. Qed.

Lemma buffer_bounded ops : (length (buffer add ops) <= cap)%nat.
Proof.
  induction ops as [|o ops IH] using rev_ind; [simpl; lia|].
  rewrite buffer_snoc. destruct o as [x|]; simpl; [|lia].
  rewrite add_spec. apply slice_last_length, cap_pos.
Qed.

(** Appending after any history leaves the last [cap] entries of what the
    buffer held followed by what was appended. *)
Lemma buffer_appends_after ops xs :
  buffer add (ops ++ map Append xs)
  = drop (length (buffer add ops ++ xs) - cap) (buffer add ops ++ xs).
Proof.
  induction xs as [|x xs IH] using rev_ind.
  - rewrite !app_nil_r. pose proof (buffer_bounded ops).
    replace (length (buffer add ops) - cap)%nat with 0%nat by lia.
    reflexivity.
  - rewrite map_app, !app_assoc. simpl map.
    rewrite buffer_snoc, IH. simpl apply.
    rewrite add_spec. apply slice_last_snoc, cap_pos.
Qed.

Lemma buffer_appends xs :
  buffer add (map Append xs) = drop (length xs - cap) xs.
Proof. apply (buffer_appends_after [] xs). Qed.

(** Once [cap] entries or more have been appended, what the buffer held
    before is gone. *)
Lemma buffer_appends_over ops xs n :
  length xs = (cap + n)%nat ->
  buffer add (ops ++ map Append xs) = drop n xs.
Proof.
  intros Hlen. rewrite buffer_appends_after, length_app, Hlen.
  replace (length (buffer add ops) + (cap + n) - cap)%nat
    with (length (buffer add ops) + n)%nat by lia.
  apply drop_app_add.
Qed.
End Capacity.

(** C7. The buffer of [DataGenerator] never holds more than 50 entries and
    that of [RealTimeStatus] never more than 20, whatever is appended and
    whenever it is cleared; after [capacity + 5] entries have been
    appended, whatever came before, it holds all of them but the first
    five, that is the last [capacity] of them, in the order of arrival. *)
Theorem process_logs_bounded_fifo (ops : list (Op A)) (xs ys : list A) :
  length xs = 55%nat ->
  length ys = 25%nat ->
  (length (buffer DataGenerator_setProcessLogs ops) <= 50)%nat
  /\ (length (buffer RealTimeStatus_setProcessLogs ops) <= 20)%nat
  /\ buffer DataGenerator_setProcessLogs (ops ++ map Append xs) = drop 5 xs
  /\ length (buffer DataGenerator_setProcessLogs (ops ++ map Append xs)) = 50%nat
  /\ buffer RealTimeStatus_setProcessLogs (ops ++ map Append ys) = drop 5 ys
  /\ length (buffer RealTimeStatus_setProcessLogs (ops ++ map Append ys)) = 20%nat.
Proof.
  intros Hxs Hys.
  assert (H50 : forall prev (x : A),
             DataGenerator_setProcessLogs prev x = slice (- Z.of_nat 50) (prev ++ [x]))
    by reflexivity.
  assert (H20 : forall prev (x : A),
             RealTimeStatus_setProcessLogs prev x = slice (- Z.of_nat 20) (prev ++ [x]))
    by reflexivity.
  split; [apply (buffer_bounded 50); [lia | exact H50]|].
  split; [apply (buffer_bounded 20); [lia | exact H20]|].
  rewrite !(buffer_appends_over 50 _ ltac:(lia) H50 ops xs 5 Hxs).
  rewrite !(buffer_appends_over 20 _ ltac:(lia) H20 ops ys 5 Hys).
  rewrite !length_drop, Hxs, Hys.
  repeat split; reflexivity.
Qed.

End BufferFacts.

(** Entries 1 to 55, and 1 to 25, appended to a buffer that has a history. *)
Lemma process_logs_bounded_fifo_witness :
  ProcessLogs.buffer ProcessLogs.DataGenerator_setProcessLogs
    ([ProcessLogs.Append 0%nat; ProcessLogs.Clear; ProcessLogs.Append 0%nat]
     ++ map ProcessLogs.Append (seq 1 55)) = seq 6 50
  /\ ProcessLogs.buffer ProcessLogs.RealTimeStatus_setProcessLogs
       ([ProcessLogs.Append 0%nat; ProcessLogs.Clear; ProcessLogs.Append 0%nat]
        ++ map ProcessLogs.Append (seq 1 25)) = seq 6 20.
Proof.
  destruct (process_logs_bounded_fifo
              [ProcessLogs.Append 0%nat; ProcessLogs.Clear; ProcessLogs.Append 0%nat]
              (seq 1 55) (seq 1 25) eq_refl eq_refl)
    as (_ & _ & H1 & _ & H2 & _).
  split; [rewrite H1 | rewrite H2]; reflexivity.
Defined.

(** ** JSON texts *)

Section JsonFacts.
Import Js Json.
Local Open Scope Z_scope.

Lemma hex_value_digit n : 0 <= n < 16 -> hex_value (hex_digit n) = Some n.
Proof.
  intros Hn. unfold hex_digit, hex_value.
  destruct (Z.ltb_spec n 10).
  - replace ((48 <=? 48 + n) && (48 + n <=? 57)) with true
      by (symmetry; apply andb_true_iff; split; apply Z.leb_le; lia).
    f_equal. lia.
  - replace ((48 <=? 87 + n) && (87 + n <=? 57)) with false
      by (symmetry; apply andb_false_iff; right; apply Z.leb_gt; lia).
    replace ((97 <=? 87 + n) && (87 + n <=? 102)) with true
      by (symmetry; apply andb_true_iff; split; apply Z.leb_le; lia).
    f_equal. lia.
Qed.

Lemma string_body_raw c t :
  c <> 34 -> c <> 92 -> 32 <= c ->
  string_body (c :: t) = cons_to c (string_body t).
Proof.
  intros H1 H2 H3. simpl.
  destruct (Z.eqb_spec c 34); [contradiction|].
  destruct (Z.eqb_spec c 92); [contradiction|].
  destruct (Z.ltb_spec c 32); [lia|]. reflexivity.
Qed.

Lemma string_body_unicode h1 h2 h3 h4 t :
  string_body (92 :: 117 :: h1 :: h2 :: h3 :: h4 :: t) =
    match hex_value h1, hex_value h2, hex_value h3, hex_value h4 with
    | Some a, Some b, Some x, Some y =>
        cons_to (4096 * a + 256 * b + 16 * x + y) (string_body t)
    | _, _, _, _ => None
    end.
Proof. reflexivity. Qed.

Lemma string_body_unicode_escape c t :
  code_unit c ->
  string_body (unicode_escape c ++ t) = cons_to c (string_body t).
Proof.
  intros Hc. unfold code_unit in Hc. unfold unicode_escape.
  cbn [app]. rewrite string_body_unicode.
  rewrite !hex_value_digit.
  - f_equal. Z.div_mod_to_equations. lia.
  - apply Z.mod_pos_bound. lia.
  - apply Z.mod_pos_bound. lia.
  - apply Z.mod_pos_bound. lia.
  - Z.div_mod_to_equations. lia.
Qed.

(** Reading back what [escape] wrote. *)
Lemma string_body_escape c t :
  code_unit c ->
  string_body (escape c ++ t) = cons_to c (string_body t).
Proof.
  intros Hc. unfold escape.
  destruct (Z.eqb_spec c 8) as [->|?]; [reflexivity|].
  destruct (Z.eqb_spec c 9) as [->|?]; [reflexivity|].
  destruct (Z.eqb_spec c 10) as [->|?]; [reflexivity|].
  destruct (Z.eqb_spec c 12) as [->|?]; [reflexivity|].
  destruct (Z.eqb_spec c 13) as [->|?]; [reflexivity|].
  destruct (Z.eqb_spec c 34) as [->|?]; [reflexivity|].
  destruct (Z.eqb_spec c 92) as [->|?]; [reflexivity|].
  destruct ((c <? 32) || is_surrogate c) eqn:Hesc.
  - apply string_body_unicode_escape, Hc.
  - apply orb_false_iff in Hesc as [Hlt _].
    apply Z.ltb_ge in Hlt.
    apply string_body_raw; assumption.
Qed.

Lemma quote_units_pair c d s :
  quote_units (c :: d :: s) =
    if is_high_surrogate c && is_low_surrogate d
    then c :: d :: quote_units s
    else escape c ++ quote_units (d :: s).
Proof. reflexivity. Qed.

Lemma string_body_quote_units rest n : forall s,
  (length s <= n)%nat -> wf_string s ->
  string_body (quote_units s ++ 34 :: rest) = Some (s, rest).
Proof.
  induction n as [|n IH]; intros s Hlen Hwf.
  - destruct s; [reflexivity | simpl in Hlen; lia].
  - destruct s as [|c [|d s]]; [reflexivity | |].
    + apply Forall_inv in Hwf. simpl quote_units.
      rewrite string_body_escape by assumption. reflexivity.
    + rewrite quote_units_pair.
      pose proof (Forall_inv Hwf) as Hc.
      pose proof (Forall_inv_tail Hwf) as Hwf'.
      destruct (is_high_surrogate c && is_low_surrogate d) eqn:Hpair.
      * apply andb_true_iff in Hpair as [Hh Hl].
        unfold is_high_surrogate in Hh. unfold is_low_surrogate in Hl.
        apply andb_true_iff in Hh as [Hh1 Hh2].
        apply andb_true_iff in Hl as [Hl1 Hl2].
        apply Z.leb_le in Hh1, Hh2, Hl1, Hl2.
        cbn [app].
        rewrite string_body_raw by lia.
        rewrite string_body_raw by lia.
        rewrite IH; [reflexivity | simpl in Hlen; lia | exact (Forall_inv_tail Hwf')].
      * rewrite <- app_assoc.
        rewrite string_body_escape by assumption.
        rewrite IH; [reflexivity | simpl in Hlen |- *; lia | exact Hwf'].
Qed.

Example escape_newline : escape 10 = lit "\n".
Proof. reflexivity. Qed.

Example escape_lone_surrogate : escape 55357 = lit "\ud83d".
Proof. reflexivity. Qed.

Example quote_pair : quote [55357; 56832] = [34; 55357; 56832; 34].
Proof. reflexivity. Qed.

Lemma skip_ws_keeps c t : is_ws c = false -> skip_ws (c :: t) = c :: t.
Proof. intros H. simpl. rewrite H. reflexivity. Qed.

(** A quoted string is read back as it was. *)
Lemma string_token_quote s rest :
  wf_string s -> string_token (quote s ++ rest) = Some (s, rest).
Proof.
  intros Hwf. unfold string_token, quote.
  rewrite <- app_comm_cons, skip_ws_keeps by reflexivity.
  rewrite <- app_assoc. cbn [app].
  apply (string_body_quote_units rest (length s)); [lia | assumption].
Qed.

Lemma members_more k v t acc fuel :
  wf_string k -> wf_string v ->
  members (S fuel) (member_text (k, v) ++ 44 :: t) acc
  = members fuel t (obj_set acc k v).
Proof.
  intros Hk Hv. unfold member_text. cbn [fst snd members].
  rewrite <- app_assoc. rewrite string_token_quote by assumption.
  rewrite <- app_comm_cons, skip_ws_keeps by reflexivity.
  rewrite string_token_quote by assumption.
  reflexivity.
Qed.

Lemma members_last k v acc fuel :
  wf_string k -> wf_string v ->
  members (S fuel) (member_text (k, v) ++ [125]) acc = Some (obj_set acc k v).
Proof.
  intros Hk Hv. unfold member_text. cbn [fst snd members].
  rewrite <- app_assoc. rewrite string_token_quote by assumption.
  rewrite <- app_comm_cons, skip_ws_keeps by reflexivity.
  rewrite string_token_quote by assumption.
  reflexivity.
Qed.

Lemma members_text_cons kv kv' o :
  members_text (kv :: kv' :: o) = member_text kv ++ 44 :: members_text (kv' :: o).
Proof. reflexivity. Qed.

Lemma members_members_text o : forall kv acc fuel,
  wf_obj (kv :: o) -> (length (kv :: o) <= fuel)%nat ->
  members fuel (members_text (kv :: o) ++ [125]) acc = Some (rebuild (kv :: o) acc).
Proof.
  induction o as [|kv' o IH]; intros [k v] acc fuel Hwf Hfuel.
  - destruct fuel as [|fuel]; [simpl in Hfuel; lia|].
    destruct (Forall_inv Hwf) as [Hk Hv].
    simpl members_text. apply members_last; assumption.
  - destruct fuel as [|fuel]; [simpl in Hfuel; lia|].
    destruct (Forall_inv Hwf) as [Hk Hv].
    rewrite members_text_cons, <- app_assoc. cbn [app].
    rewrite members_more by assumption.
    rewrite IH; [reflexivity | exact (Forall_inv_tail Hwf) | simpl in Hfuel |- *; lia].
Qed.

Lemma member_text_length kv : (1 <= length (member_text kv))%nat.
Proof. unfold member_text, quote. simpl. lia. Qed.

Lemma members_text_length o : (length o <= length (members_text o))%nat.
Proof.
  induction o as [|kv [|kv' o] IH]; [simpl; lia | |].
  - pose proof (member_text_length kv). simpl. lia.
  - rewrite members_text_cons, length_app.
    pose proof (member_text_length kv).
    change (length (kv :: kv' :: o)) with (S (length (kv' :: o))).
    change (length (44 :: members_text (kv' :: o)))
      with (S (length (members_text (kv' :: o)))).
    lia.
Qed.

Lemma members_text_head kv o :
  exists t, members_text (kv :: o) = 34 :: t.
Proof.
  destruct o; [|rewrite members_text_cons]; unfold member_text, quote;
    eexists; reflexivity.
Qed.

(** Parsing the text of an object sets its properties in turn. *)
Lemma parse_stringify o :
  wf_obj o -> parse (stringify o) = Some (rebuild o []).
Proof.
  intros Hwf. unfold parse, stringify.
  rewrite skip_ws_keeps by reflexivity.
  destruct o as [|kv o]; [reflexivity|].
  destruct (members_text_head kv o) as [t Ht].
  rewrite Ht at 1. rewrite <- app_comm_cons, skip_ws_keeps by reflexivity.
  apply members_members_text; [assumption|].
  rewrite length_app. pose proof (members_text_length (kv :: o)). lia.
Qed.

End JsonFacts.

(** ** The model store and the selector *)

Section StoreFacts.
Import Js Json ModelProvider ModelSelector.
Local Open Scope Z_scope.

Lemma lit_wf s : Forall (fun a => code_unit (Z.of_N (N_of_ascii a))) (list_ascii_of_string s).
Proof.
  apply Forall_forall. intros a _. unfold code_unit.
  pose proof (N_ascii_bounded a). lia.
Qed.

Lemma wf_lit s : wf_string (lit s).
Proof. unfold wf_string, lit. rewrite Forall_map. apply lit_wf. Qed.

Lemma to_object_wf c : wf_config c -> wf_obj (to_object c).
Proof.
  intros (Hp & Hm & Hk & He). unfold to_object, wf_obj.
  repeat (apply Forall_cons; split; [split; [apply wf_lit | assumption]|]).
  destruct (ModelProvider.endpoint c); [|constructor].
  apply Forall_cons; split; [split; [apply wf_lit | assumption]|constructor].
Qed.

(** The property names of a configuration differ, so setting them in turn
    gives the object back. *)
Lemma to_object_rebuild c : rebuild (to_object c) [] = to_object c.
Proof. unfold to_object. destruct (ModelProvider.endpoint c); reflexivity. Qed.

Lemma parse_stringify_config c :
  wf_config c -> parse (stringify (to_object c)) = Some (to_object c).
Proof.
  intros Hwf. rewrite parse_stringify by (apply to_object_wf, Hwf).
  rewrite to_object_rebuild. reflexivity.
Qed.

(** C8. After [setModel], a reload, which reads the stored text back and
    parses it, leaves in memory a configuration equal to the one that
    was set, property by property, whatever the provider, the model, the
    key and the endpoint are. *)
Theorem model_config_round_trip (st : Store) (config : ModelConfig) :
  wf_config config ->
  currentModel (reload (setModel config st)) = Some (to_object config)
  /\ currentModel (reload (setModel config st)) = currentModel (setModel config st)
  /\ localStorage (reload (setModel config st)) = localStorage (setModel config st)
  /\ parse (stringify (to_object config)) = Some (to_object config).
Proof.
  intros Hwf.
  assert (Hload : load (localStorage (setModel config st)) = Some (to_object config)).
  { unfold load, setModel. cbn [localStorage]. rewrite lookup_insert_eq.
    rewrite parse_stringify_config by assumption. reflexivity. }
  unfold reload. cbn [currentModel localStorage]. rewrite Hload.
  repeat split; try reflexivity.
  apply parse_stringify_config, Hwf.
Qed.

(** One configuration for each provider. *)
Lemma model_config_round_trip_witness :
  currentModel (reload (setModel gemini_config empty_store))
    = Some (to_object gemini_config)
  /\ currentModel (reload (setModel openai_config empty_store))
     = Some (to_object openai_config)
  /\ currentModel (reload (setModel anthropic_config empty_store))
     = Some (to_object anthropic_config)
  /\ currentModel (reload (setModel ollama_config empty_store))
     = Some (to_object ollama_config).
Proof.
  split; [|split; [|split]].
  - apply (model_config_round_trip empty_store gemini_config).
    unfold wf_config, wf_string, code_unit. simpl.
    repeat split; repeat constructor; lia.
  - apply (model_config_round_trip empty_store openai_config).
    unfold wf_config, wf_string, code_unit. simpl.
    repeat split; repeat constructor; lia.
  - apply (model_config_round_trip empty_store anthropic_config).
    unfold wf_config, wf_string, code_unit. simpl.
    repeat split; repeat constructor; lia.
  - apply (model_config_round_trip empty_store ollama_config).
    unfold wf_config, wf_string, code_unit. simpl.
    repeat split; repeat constructor; lia.
Defined.

(** C9, as stated, fails for [setModel]: it takes the configuration of
    provider [openai] with the empty key, keeps it in memory and writes
    it to the storage. *)
Lemma set_without_key_counterexample :
  provider openai_no_key <> lit "ollama"
  /\ ModelProvider.apiKey openai_no_key = []
  /\ currentModel (setModel openai_no_key empty_store)
     = Some (to_object openai_no_key)
  /\ localStorage (setModel openai_no_key empty_store) !! storage_key
     = Some (stringify (to_object openai_no_key))
  /\ localStorage (setModel openai_no_key empty_store) <> localStorage empty_store.
Proof.
  split; [vm_compute; discriminate|].
  split; [reflexivity|].
  split; [reflexivity|].
  split; [apply lookup_insert_eq|].
  intros H. apply (f_equal (fun m => m !! storage_key)) in H.
  unfold setModel in H. cbn [localStorage empty_store] in H.
  rewrite lookup_insert_eq, lookup_empty in H. discriminate.
Qed.

(** C9, amended. The save handler of the selector, the caller of
    [setModel], rejects a selection whose provider is not [ollama] and
    whose key is empty once trimmed: before any request it sets the
    validation state to the error ['Please enter an API key'], does not
    call [setModel], and leaves the memory and the storage as they were.
    [setModel] itself checks nothing and writes what it is given. *)
Theorem save_without_key_rejected
    (configure_ok test_ok : bool) (s : Selector) (st : Store) :
  selectedProvider s <> lit "ollama" ->
  trim (apiKey s) = [] ->
  handleSave configure_ok test_ok s st
    = (setValidationState
         {| isValidating := false; status := error;
            message := lit "Please enter an API key"; logs := [] |} s,
       st, [])
  /\ localStorage (handleSave configure_ok test_ok s st).1.2 = localStorage st
  /\ currentModel (handleSave configure_ok test_ok s st).1.2 = currentModel st
  /\ (forall config st',
        localStorage (setModel config st') !! storage_key
        = Some (stringify (to_object config))).
Proof.
  intros Hp Hk.
  assert (Hsave : handleSave configure_ok test_ok s st
                  = (setValidationState
                       {| isValidating := false; status := error;
                          message := lit "Please enter an API key"; logs := [] |} s,
                     st, [])).
  { unfold handleSave.
    rewrite (bool_decide_eq_false_2 _ Hp), (bool_decide_eq_true_2 _ Hk).
    reflexivity. }
  rewrite Hsave. repeat split.
  intros config st'. apply lookup_insert_eq.
Qed.

(** The selection [openai], [gpt-4] with no key. *)
Lemma save_without_key_rejected_witness :
  status (validationState (handleSave true true openai_selection empty_store).1.1) = error
  /\ (handleSave true true openai_selection empty_store).1.2 = empty_store
  /\ (handleSave true true openai_selection empty_store).2 = [].
Proof.
  assert (Hp : selectedProvider openai_selection <> lit "ollama")
    by (vm_compute; discriminate).
  destruct (save_without_key_rejected true true openai_selection empty_store
              Hp eq_refl) as (-> & _).
  repeat split.
Defined.

End StoreFacts.

(* ================================================================== *)
(** * Further properties *)
(* ================================================================== *)

(** ** The status hook *)

Section HookFacts.
Import Js ApiService SystemStatus.
Local Open Scope Z_scope.

Lemma determine_overall_message s :
  message (overall (determine_overall s)) =
    if backend_healthy (backend s)
    then if bool_decide (gemini_status (gemini s) = online) && active (agents s)
         then lit "All systems operational - Full AI generation available"
         else if bool_decide (gemini_status (gemini s) = offline)
              then lit "Backend healthy, Gemini offline - Local generation available"
              else lit "Partial functionality available"
    else lit "AI system unavailable - Please check connection".
Proof.
  unfold determine_overall.
  destruct (backend_healthy (backend s)); simpl; [|reflexivity].
  destruct (bool_decide _ && _); reflexivity.
Qed.

Lemma determine_overall_gemini s : gemini (determine_overall s) = gemini s.
Proof. unfold determine_overall. repeat case_match; reflexivity. Qed.

(** On the normal path the AI engine is published as [online]. *)
Lemma normal_path_gemini rt now r probe :
  gemini_status (gemini (detailed_agents (newStatus rt now r) probe)) = online.
Proof.
  destruct (detailed_agents_rest (newStatus rt now r) probe) as (_ & -> & _).
  apply gemini_always_online.
Qed.

(** What a cycle publishes as overall status and message, from the backend
    and agents it publishes. *)
Lemma published_overall i :
  overall_status (overall (published i))
  = (if backend_healthy (backend (published i))
     then if active (agents (published i)) then healthy else degraded
     else unhealthy)
  /\ (message (overall (published i))
      = (if backend_healthy (backend (published i))
         then if active (agents (published i))
              then lit "All systems operational - Full AI generation available"
              else lit "Partial functionality available"
         else lit "AI system unavailable - Please check connection")
      \/ message (overall (published i)) = lit "System health check failed").
Proof.
  unfold published, cycle.
  destruct (healthResponse i) as [r|e]; [|split; [reflexivity | right; reflexivity]].
  destruct (ApiService.healthy r) eqn:Hh; simpl;
    rewrite determine_overall_status, determine_overall_message,
            determine_overall_backend, determine_overall_agents.
  - rewrite normal_path_gemini.
    destruct (detailed_agents_rest
                (newStatus (afterProbe i - startTime i) (newDate i) r)
                (agentsResponse i)) as (-> & _ & _).
    cbn [backend newStatus backend_healthy]. rewrite Hh. simpl.
    destruct (active _); split; try reflexivity; left; reflexivity.
  - simpl. rewrite Hh. split; [reflexivity | left; reflexivity].
Qed.

(** X1. In the status that a cycle publishes and in the status that the
    hook holds after any sequence of invocations and settlements, the
    overall status is [healthy] exactly when the backend is healthy and
    the agents are active, [degraded] when the backend is healthy and the
    agents are not, [unhealthy] when the backend is not healthy: the
    getters [isHealthy], [isDegraded] and [isUnhealthy] are functions of
    [backendHealthy] and [agentsActive]. *)
Theorem verdict_from_backend_and_agents (i : CycleInput) (evs : list Event) :
  overall_status (overall (published i))
  = (if backend_healthy (backend (published i))
     then if active (agents (published i)) then healthy else degraded
     else unhealthy)
  /\ isHealthy (run evs) = backendHealthy (run evs) && agentsActive (run evs)
  /\ isDegraded (run evs) = backendHealthy (run evs) && negb (agentsActive (run evs))
  /\ isUnhealthy (run evs) = negb (backendHealthy (run evs)).
Proof.
  split; [apply published_overall|].
  unfold isHealthy, isDegraded, isUnhealthy, backendHealthy, agentsActive.
  destruct (run_status evs) as [->|[j ->]].
  - repeat split; reflexivity.
  - destruct (published_overall j) as [-> _].
    destruct (backend_healthy (backend (published j))),
             (active (agents (published j))); repeat split; reflexivity.
Qed.

(** X2. A degraded status always carries the message ['Partial
    functionality available']; the message ['Backend healthy, Gemini
    offline - Local generation available'] is never published by a cycle
    nor held by the hook. *)
Theorem degraded_is_partial_functionality (i j : CycleInput) (evs : list Event) :
  overall_status (overall (published i)) = degraded ->
  message (overall (published i)) = lit "Partial functionality available"
  /\ message (overall (published j))
       <> lit "Backend healthy, Gemini offline - Local generation available"
  /\ message (overall (status (run evs)))
       <> lit "Backend healthy, Gemini offline - Local generation available".
Proof.
  intros Hdeg.
  assert (Hpub : forall k, message (overall (published k))
            <> lit "Backend healthy, Gemini offline - Local generation available").
  { intros k. destruct (published_overall k) as [_ [-> | ->]];
      [destruct (backend_healthy (backend (published k))),
                (active (agents (published k)))|]; vm_compute; discriminate. }
  split; [|split; [apply Hpub|]].
  - destruct (published_overall i) as [Hs Hm]. rewrite Hs in Hdeg.
    destruct (backend_healthy (backend (published i))) eqn:Hb;
      [destruct (active (agents (published i))) eqn:Ha|]; try discriminate.
    destruct Hm as [Hm|Hm]; [exact Hm|].
    exfalso. revert Hb Hm. unfold published, cycle.
    destruct (healthResponse i) as [r|e]; [|discriminate].
    destruct (ApiService.healthy r) eqn:Hh; simpl;
      rewrite determine_overall_message, determine_overall_backend.
    + rewrite normal_path_gemini.
      destruct (detailed_agents_rest
                  (newStatus (afterProbe i - startTime i) (newDate i) r)
                  (agentsResponse i)) as (-> & _ & _).
      cbn [backend newStatus backend_healthy]. rewrite Hh.
      intros _ H. simpl in H.
      destruct (active _) in H; vm_compute in H; discriminate H.
    + simpl. rewrite Hh. discriminate.
  - destruct (run_status evs) as [->|[k ->]]; [|apply Hpub].
    intros H. vm_compute in H. discriminate H.
Qed.

(** A health response that reports the AI engine starting: degraded. *)
Lemma degraded_is_partial_functionality_witness :
  overall_status (overall (published gemini_starting)) = degraded
  /\ message (overall (published gemini_starting)) = lit "Partial functionality available".
Proof.
  assert (Hd : overall_status (overall (published gemini_starting)) = degraded)
    by (vm_compute; reflexivity).
  split; [exact Hd|].
  apply (degraded_is_partial_functionality gemini_starting probe_down [] Hd).
Defined.

(** X3. Wired to [ApiService.healthCheck], a cycle publishes the overall
    status [unhealthy] exactly when the [/health] request failed or was
    answered with a status other than 200; the error is then
    ['Connection failed'] and the agent probe is not issued, while after
    an answer 200 there is no error and the agent probe is issued.  The
    status of the outer [catch] is never published, since [healthCheck]
    does not throw. *)
Theorem wired_cycle_follows_the_answer (t0 t1 t2 : Z) (health agentsReq : AxiosOutcome) :
  overall_status (overall (published (wired t0 t1 t2 health agentsReq)))
  = (if answered_200 health
     then if active (agents (published (wired t0 t1 t2 health agentsReq)))
          then healthy else degraded
     else unhealthy)
  /\ error (backend (published (wired t0 t1 t2 health agentsReq)))
     = (if answered_200 health then None else Some (lit "Connection failed"))
  /\ calls_of (wired t0 t1 t2 health agentsReq)
     = (if answered_200 health
        then [CallHealthCheck; CallGetAgentsStatus] else [CallHealthCheck])
  /\ message (overall (published (wired t0 t1 t2 health agentsReq)))
       <> lit "System health check failed".
Proof.
  assert (Hh : ApiService.healthy (healthCheck health) = answered_200 health)
    by (destruct health; reflexivity).
  destruct (published_overall (wired t0 t1 t2 health agentsReq)) as [Hs _].
  rewrite Hs. clear Hs.
  unfold published, calls_of, cycle, wired. cbn [healthResponse].
  rewrite Hh.
  destruct (answered_200 health);
    cbn [fst snd startTime afterProbe newDate agentsResponse];
    rewrite determine_overall_message, determine_overall_backend.
  - destruct (detailed_agents_rest
                (newStatus (t1 - t0) t2 (healthCheck health))
                (getAgentsStatus agentsReq)) as (-> & Hg & _).
    rewrite Hg. cbn [backend newStatus backend_healthy error]. rewrite Hh.
    do 3 (split; [reflexivity|]).
    destruct (_ && _); [|destruct (bool_decide _)]; vm_compute; discriminate.
  - cbn [backend newStatus backend_healthy error]. rewrite Hh.
    do 3 (split; [reflexivity|]).
    vm_compute; discriminate.
Qed.

Lemma filter_active_nullish vals :
  Exists (fun v => nullish v = true) vals ->
  exists e, filter_active vals = Throw e.
Proof.
  induction vals as [|v vals IH]; intros Hex; [inversion Hex|].
  simpl. unfold member.
  destruct (nullish v) eqn:Hv; [eexists; reflexivity|].
  inversion Hex as [? ? Hn|? ? Hn]; subst; [congruence|].
  destruct (IH Hn) as [e ->]. eexists. reflexivity.
Qed.

Lemma filter_active_length vals act :
  filter_active vals = Ret act -> (length act <= length vals)%nat.
Proof.
  revert act. induction vals as [|v vals IH]; intros act.
  - simpl. intros [= <-]. simpl. lia.
  - simpl. unfold member. destruct (nullish v); [discriminate|].
    unfold mbind, outcome_bind, bind. 
    destruct (filter_active vals) as [rest|e]; [|discriminate].
    specialize (IH rest eq_refl).
    destruct (is_string _ _); intros [= <-]; simpl; lia.
Qed.

(** X4. When the answer of [/agents/status] lists an entry that is [null]
    or [undefined], reading it throws inside the inner [try]: the cycle
    publishes what it would have published had the request failed, with
    the agents derived from the health response. *)
Theorem null_agent_entry_is_tolerated
    (i : CycleInput) (agentStatus : JsVal) (vals : list JsVal) (e : Thrown) :
  agentsResponse i = Ret agentStatus ->
  Object_values (get agentStatus (lit "agents")) = Ret vals ->
  Exists (fun v => nullish v = true) vals ->
  published i = published (with_agentsResponse i (Throw e)).
Proof.
  intros Ha Hv Hex. unfold published, cycle, with_agentsResponse.
  cbn [healthResponse startTime afterProbe newDate agentsResponse].
  destruct (healthResponse i) as [r|e']; [|reflexivity].
  destruct (ApiService.healthy r); [|reflexivity].
  cbn [fst]. f_equal. rewrite Ha.
  unfold detailed_agents, with_agent_status, mbind, outcome_bind, bind.
  destruct (truthy agentStatus && truthy (get agentStatus (lit "agents")));
    [|reflexivity].
  rewrite Hv. destruct (filter_active_nullish vals Hex) as [e'' ->]. reflexivity.
Qed.

(** Two active agents and a [null] between them. *)
Lemma null_agent_entry_is_tolerated_witness :
  agents (published (healthy_with null_entry))
  = {| active := true; total := JNum 5; operational := 5; details := None |}.
Proof.
  rewrite (null_agent_entry_is_tolerated (healthy_with null_entry) null_entry
             [active_agent; JNull; active_agent] network_error eq_refl eq_refl).
  - vm_compute. reflexivity.
  - apply Exists_cons_tl, Exists_cons_hd. reflexivity.
Defined.

(** X5. The published agents either are those of the health response or
    of the outer [catch], with total 5, none or five operational and no
    details, or come with the details of a detailed answer, and then the
    operational agents are the entries of the details whose status is
    ['active']: they are never more than the entries listed. *)
Theorem operational_counts_the_details (i : CycleInput) :
  (details (agents (published i)) = None
   /\ total (agents (published i)) = JNum 5
   /\ (operational (agents (published i)) = 0
       \/ operational (agents (published i)) = 5))
  \/ (exists d vals act,
        details (agents (published i)) = Some d
        /\ truthy d = true
        /\ Object_values d = Ret vals
        /\ filter_active vals = Ret act
        /\ operational (agents (published i)) = Z.of_nat (length act)
        /\ 0 <= operational (agents (published i)) <= Z.of_nat (length vals)).
Proof.
  assert (Hprim : forall rt now r,
            details (agents (newStatus rt now r)) = None
            /\ total (agents (newStatus rt now r)) = JNum 5
            /\ (operational (agents (newStatus rt now r)) = 0
                \/ operational (agents (newStatus rt now r)) = 5)).
  { intros. simpl. destruct (is_string _ _); auto. }
  unfold published, cycle.
  destruct (healthResponse i) as [r|e]; [|left; simpl; auto].
  destruct (ApiService.healthy r); cbn [fst]; rewrite determine_overall_agents;
    [|left; apply Hprim].
  destruct (detailed_agents_cases
              (newStatus (afterProbe i - startTime i) (newDate i) r)
              (agentsResponse i))
    as [->|(a & vals & act & _ & Hg & Hv & Hf & ->)]; [left; apply Hprim|].
  right. exists (get a (lit "agents")), vals, act.
  apply andb_true_iff in Hg as [_ Hg].
  pose proof (filter_active_length vals act Hf).
  cbn [agents set_agents details operational].
  repeat split; try assumption; lia.
Qed.

(** X6. The [finally] block frees the guard on every path: the
    settlement of a cycle in flight, whatever the probes answered and also
    when the health check threw, leaves [isChecking] false, also while
    other cycles are still in flight, and takes that cycle alone out of
    those in flight.  A callback of the render that follows saw
    [isChecking] false: its invocation issues one more health check. *)
Theorem settlement_frees_the_guard
    (evs : list Event) (k : nat) (x : Settlement) (now : Z) :
  (k < length (inFlight (run evs)))%nat ->
  isChecking (run (evs ++ [Settle k x])) = false
  /\ inFlight (run (evs ++ [Settle k x])) = delete k (inFlight (run evs))
  /\ length (inFlight (run (evs ++ [Settle k x])))
     = (length (inFlight (run evs)) - 1)%nat
  /\ issued (run (evs ++ [Settle k x;
                          Invoke (isChecking (run (evs ++ [Settle k x]))) now]))
     = issued (run (evs ++ [Settle k x])) ++ [CallHealthCheck]
  /\ isChecking (run (evs ++ [Settle k x;
                              Invoke (isChecking (run (evs ++ [Settle k x]))) now]))
     = true.
Proof.
  intros Hk.
  destruct (lookup_lt_is_Some_2 _ _ Hk) as [start Hs].
  assert (Hrun : run (evs ++ [Settle k x])
                 = {| status := published (cycle_input start x);
                      isChecking := false;
                      inFlight := delete k (inFlight (run evs));
                      issued := issued (run evs)
                                ++ tail (calls_of (cycle_input start x)) |}).
  { rewrite run_snoc. simpl. unfold settle. rewrite Hs. reflexivity. }
  replace (evs ++ [Settle k x; Invoke (isChecking (run (evs ++ [Settle k x]))) now])
    with ((evs ++ [Settle k x])
          ++ [Invoke (isChecking (run (evs ++ [Settle k x]))) now])
    by (rewrite <- app_assoc; reflexivity).
  rewrite (run_snoc (evs ++ [Settle k x])). rewrite Hrun. simpl.
  split; [reflexivity|]. split; [reflexivity|].
  split; [rewrite length_delete by (exists start; exact Hs); reflexivity|].
  split; reflexivity.
Qed.

(** Two cycles started through one callback; the second settles first and
    frees the guard while the first is still in flight. *)
Lemma settlement_frees_the_guard_witness :
  isChecking (run ([Invoke false 0; Invoke false 5]
                   ++ [Settle 1 {| s_afterProbe := 40; s_newDate := 41;
                                   s_healthResponse := Throw network_error;
                                   s_agentsResponse := Throw network_error |}])) = false
  /\ inFlight (run ([Invoke false 0; Invoke false 5]
                    ++ [Settle 1 {| s_afterProbe := 40; s_newDate := 41;
                                    s_healthResponse := Throw network_error;
                                    s_agentsResponse := Throw network_error |}])) = [0].
Proof.
  destruct (settlement_frees_the_guard [Invoke false 0; Invoke false 5] 1
              {| s_afterProbe := 40; s_newDate := 41;
                 s_healthResponse := Throw network_error;
                 s_agentsResponse := Throw network_error |} 50)
    as (H1 & H2 & _).
  - simpl. lia.
  - split; [exact H1|]. rewrite H2. reflexivity.
Defined.



End HookFacts.

(** ** The event channel *)

Section ChannelMoreFacts.
Import Js WebSocketHook.
Local Open Scope Z_scope.

(** X8. A successful open restarts the backoff: whatever happened before,
    while no socket opens after it the delays of the timers set are again
    the first elements of [2000; 4000; 8000], one for each close. *)
Theorem open_restarts_the_backoff (before after : list Event) :
  no_open after ->
  scheduled (run (before ++ Open :: after))
  = scheduled (run before) ++ take (closes after) [2000; 4000; 8000]
  /\ reconnectAttempts (run (before ++ Open :: after))
     = Z.of_nat (Nat.min (closes after) 3)
  /\ error (run (before ++ [Open])) = None
  /\ isConnected (run (before ++ [Open])) = true.
Proof.
  intros Hno. unfold run. rewrite !fold_left_app. simpl.
  destruct (failures_from (onopen (fold_left step before initial)) after Hno eq_refl)
    as [Hatt Hsch].
  rewrite Hatt, Hsch. repeat split; reflexivity.
Qed.

(** Three failures, an open at last, and two closes after it. *)
Lemma open_restarts_the_backoff_witness :
  scheduled (run (three_failures ++ Open :: [Close; TimerFires 3 true; Error; Close]))
  = [2000; 4000; 8000; 2000; 4000].
Proof.
  assert (Hno : no_open [Close; TimerFires 3 true; Error; Close])
    by (unfold no_open; repeat constructor).
  destruct (open_restarts_the_backoff three_failures _ Hno) as [H _].
  rewrite H. reflexivity.
Defined.

(** X9. After any trace the counter of reconnections is between 0 and 3
    and every timer was set with a delay of 2000, 4000 or 8000: the cap of
    10000 is never what [Math.min] returns. *)
Theorem delays_stay_below_the_cap (evs : list Event) :
  0 <= reconnectAttempts (run evs) <= maxReconnectAttempts
  /\ Forall (fun d => d = 2000 \/ d = 4000 \/ d = 8000) (scheduled (run evs))
  /\ Forall (fun d => d < 10000) (scheduled (run evs)).
Proof.
  assert (H : 0 <= reconnectAttempts (run evs) <= maxReconnectAttempts
              /\ Forall (fun d => d = 2000 \/ d = 4000 \/ d = 8000) (scheduled (run evs))).
  { unfold maxReconnectAttempts.
    induction evs as [|e evs [IHa IHs]] using rev_ind;
      [split; [simpl; lia | constructor]|].
    rewrite channel_run_snoc.
    destruct e as [created| |parsed| | |timer created|]; simpl.
    - destruct created; split; assumption.
    - split; [simpl; lia | assumption].
    - destruct parsed; split; assumption.
    - unfold onclose, maxReconnectAttempts.
      destruct (Z.ltb_spec (reconnectAttempts (run evs)) 3) as [Hlt|Hge]; simpl;
        [|split; assumption].
      split; [lia|]. apply Forall_app. split; [assumption|].
      constructor; [|constructor].
      assert (Hc : reconnectAttempts (run evs) = 0 \/ reconnectAttempts (run evs) = 1
                   \/ reconnectAttempts (run evs) = 2) by lia.
      destruct Hc as [-> | [-> | ->]]; vm_compute; auto.
    - split; assumption.
    - unfold timer_fires. destruct (bool_decide _); [|split; assumption].
      destruct created; split; assumption.
    - unfold disconnect. destruct (reconnectTimeoutRef (run evs)); split; assumption. }
  destruct H as [Ha Hs]. split; [exact Ha|]. split; [exact Hs|].
  eapply Forall_impl; [exact Hs|]. simpl. intros d [-> | [-> | ->]]; lia.
Qed.

Lemma step_connection_state c c' e :
  connection_state c = connection_state c' ->
  connection_state (step c e) = connection_state (step c' e).
Proof.
  unfold connection_state. intros [= H1 H2 H3 H4 H5 H6 H7].
  destruct e as [created| |parsed| | |timer created|]; simpl.
  - destruct created; simpl; congruence.
  - congruence.
  - destruct parsed; simpl; congruence.
  - unfold onclose. rewrite H3. destruct (_ <? _); simpl; congruence.
  - congruence.
  - unfold timer_fires. rewrite H5.
    destruct (bool_decide _); [|simpl; congruence].
    destruct created; simpl; congruence.
  - unfold disconnect. rewrite H4.
    destruct (reconnectTimeoutRef c') eqn:Ht; simpl; congruence.
Qed.

Lemma message_connection_state c parsed :
  connection_state (onmessage parsed c) = connection_state c.
Proof. destruct parsed; reflexivity. Qed.

Lemma without_messages_fold evs : forall c c',
  connection_state c = connection_state c' ->
  connection_state (fold_left step (without_messages evs) c)
  = connection_state (fold_left step evs c').
Proof.
  induction evs as [|e evs IH]; intros c c' Hcc; [exact Hcc|].
  unfold without_messages. rewrite filter_cons.
  destruct (decide (is_message e = false)) as [Hm|Hm].
  - simpl. apply IH, step_connection_state, Hcc.
  - destruct e; try (exfalso; apply Hm; reflexivity).
    simpl. apply IH. rewrite message_connection_state. exact Hcc.
Qed.

(** X10. Messages play no part in the connection: dropping the
    [onmessage] events of a trace, parsed or not, leaves [isConnected],
    the error, the counter, the timer stored, the timers pending, the
    timers set and the sockets created as they are; only [lastMessage] can
    differ. *)
Theorem messages_leave_the_connection (evs : list Event) :
  connection_state (run (without_messages evs)) = connection_state (run evs).
Proof. apply without_messages_fold. reflexivity. Qed.

Lemma connects_snoc evs e :
  connects (evs ++ [e]) = (connects evs + if is_connect e then 1 else 0)%nat.
Proof.
  unfold connects. rewrite filter_app, length_app.
  destruct e; reflexivity.
Qed.

(** Taking a timer out of those pending leaves no more of them, and fewer
    when the timer was pending. *)
Lemma without_timer_length timer timers :
  (length (without_timer timer timers) <= length timers)%nat.
Proof. unfold without_timer. apply length_filter. Qed.

Lemma without_timer_pending timer timers :
  timer ∈ timers ->
  (S (length (without_timer timer timers)) <= length timers)%nat.
Proof.
  unfold without_timer. induction timers as [|t timers IH]; intros Hin.
  - apply elem_of_nil in Hin. contradiction.
  - rewrite filter_cons. destruct (decide (t <> timer)) as [Hne|Heq].
    + apply elem_of_cons in Hin as [->|Hin]; [contradiction|].
      simpl. specialize (IH Hin). lia.
    + simpl. pose proof (length_filter (fun t => t <> timer) timers). lia.
Qed.


(** Every socket was created by the mount effect or by a timer that was
    set, and the timers pending have created none yet. *)
Lemma sockets_accounted evs :
  (sockets (run evs) + pending (run evs)
   <= connects evs + length (scheduled (run evs)))%nat.
Proof.
  induction evs as [|e evs IH] using rev_ind; [vm_compute; lia|].
  rewrite channel_run_snoc, connects_snoc.
  revert IH. generalize (run evs) as c. intros c IH.
  unfold pending in *.
  destruct e as [created| |parsed| | |timer created|]; simpl.
  - destruct created; simpl; lia.
  - lia.
  - destruct parsed; simpl; lia.
  - unfold onclose. destruct (_ <? _); simpl; [|lia].
    rewrite !length_app. simpl. lia.
  - lia.
  - unfold timer_fires. destruct (bool_decide_reflect (timer ∈ pendingTimers c)) as [Hin|_];
      [|lia].
    pose proof (without_timer_pending timer _ Hin).
    destruct created; simpl; lia.
  - unfold disconnect. destruct (reconnectTimeoutRef c) as [timer|]; simpl; [|lia].
    pose proof (without_timer_length timer (pendingTimers c)). lia.
Qed.

(** X11. While no socket opens, the sockets created are at most those of
    the calls of [connect] by the mount effect and three more: no more
    than three reconnections are made, also when several timers are
    pending at once. *)
Theorem at_most_three_reconnections (evs : list Event) :
  no_open evs ->
  (sockets (run evs) <= connects evs + 3)%nat
  /\ (sockets (run evs) <= connects evs + closes evs)%nat.
Proof.
  intros Hno. pose proof (sockets_accounted evs) as Hacc.
  destruct (failures_invariant evs Hno) as [_ Hsch].
  rewrite Hsch, length_take in Hacc. simpl in Hacc. lia.
Qed.

(** Two mounts, two timers pending at once, and both fire. *)
Lemma at_most_three_reconnections_witness :
  sockets (run (overlapping_timers ++ [TimerFires 0 true; TimerFires 1 true])) = 4%nat
  /\ (sockets (run (overlapping_timers ++ [TimerFires 0 true; TimerFires 1 true]))
      <= 2 + 3)%nat.
Proof.
  split; [reflexivity|].
  assert (Hno : no_open (overlapping_timers ++ [TimerFires 0 true; TimerFires 1 true]))
    by (unfold no_open; repeat constructor).
  destruct (at_most_three_reconnections _ Hno) as [H _]. exact H.
Defined.



Lemma last_is_open_fold evs : forall c,
  isConnected (fold_left step evs c) = last_is_open (isConnected c) evs.
Proof.
  induction evs as [|e evs IH]; intros c; [reflexivity|].
  simpl fold_left. rewrite IH.
  destruct e as [created| |parsed| | |timer created|]; simpl; try reflexivity.
  - destruct created; reflexivity.
  - destruct parsed; reflexivity.
  - unfold onclose. destruct (_ <? _); reflexivity.
  - unfold timer_fires. destruct (bool_decide _); [|reflexivity].
    destruct created; reflexivity.
  - unfold disconnect. destruct (reconnectTimeoutRef c); reflexivity.
Qed.

(** X13. [isConnected] tells which of [onopen] and [onclose] came last: it
    is true exactly when the trace has an [onopen] with no [onclose] after
    it; errors, messages, timers and [disconnect] do not change it. *)
Theorem isConnected_follows_the_last_event (evs : list Event) :
  isConnected (run evs) = last_is_open false evs.
Proof. apply (last_is_open_fold evs initial). Qed.

End ChannelMoreFacts.

(** ** The process-log buffers and the logger panel *)

Section LoggerFacts.
Import ProcessLogs.
Context {A : Type}.

Lemma DataGenerator_add_spec (prev : list A) (x : A) :
  DataGenerator_setProcessLogs prev x = slice (- Z.of_nat 50) (prev ++ [x]).
Proof. reflexivity. Qed.

Lemma RealTimeStatus_add_spec (prev : list A) (x : A) :
  RealTimeStatus_setProcessLogs prev x = slice (- Z.of_nat 20) (prev ++ [x]).
Proof. reflexivity. Qed.

(** X14. The logger panel, which shows [logs.slice(-10)] of the buffer of
    [DataGenerator], shows the ten entries received last, in the order of
    arrival, once ten entries have been received, whatever the buffer went
    through before. *)
Theorem logger_shows_the_last_ten (ops : list (Op A)) (xs : list A) :
  (10 <= length xs)%nat ->
  AIProcessLogger_shown (buffer DataGenerator_setProcessLogs (ops ++ map Append xs))
  = drop (length xs - 10) xs
  /\ length (AIProcessLogger_shown
               (buffer DataGenerator_setProcessLogs (ops ++ map Append xs))) = 10%nat.
Proof.
  intros Hlen.
  assert (Hshown : AIProcessLogger_shown
                     (buffer DataGenerator_setProcessLogs (ops ++ map Append xs))
                   = drop (length xs - 10) xs).
  { unfold AIProcessLogger_shown.
    rewrite (buffer_appends_after 50 _ ltac:(lia) DataGenerator_add_spec).
    pose proof (buffer_bounded 50 _ ltac:(lia) DataGenerator_add_spec ops) as Hb.
    set (b := buffer DataGenerator_setProcessLogs ops) in *.
    change (-10)%Z with (- Z.of_nat 10)%Z.
    rewrite slice_last by lia.
    rewrite length_drop, drop_drop, length_app.
    replace (length b + length xs - 50
             + (length b + length xs - (length b + length xs - 50) - 10))%nat
      with (length b + (length xs - 10))%nat by lia.
    apply drop_app_add. }
  split; [exact Hshown|].
  rewrite Hshown, length_drop. lia.
Qed.


(** X15. After [setProcessLogs([])] nothing is lost until the capacity is
    reached: up to 50 entries appended to the buffer of [DataGenerator],
    and up to 20 appended to that of [RealTimeStatus], are all there in the
    order of arrival. *)
Theorem nothing_lost_below_capacity (ops : list (Op A)) (xs ys : list A) :
  (length xs <= 50)%nat ->
  (length ys <= 20)%nat ->
  buffer DataGenerator_setProcessLogs (ops ++ Clear :: map Append xs) = xs
  /\ buffer RealTimeStatus_setProcessLogs (ops ++ Clear :: map Append ys) = ys.
Proof.
  intros Hxs Hys.
  replace (ops ++ Clear :: map Append xs) with ((ops ++ [Clear]) ++ map Append xs)
    by (rewrite <- app_assoc; reflexivity).
  replace (ops ++ Clear :: map Append ys) with ((ops ++ [Clear]) ++ map Append ys)
    by (rewrite <- app_assoc; reflexivity).
  rewrite (buffer_appends_after 50 _ ltac:(lia) DataGenerator_add_spec).
  rewrite (buffer_appends_after 20 _ ltac:(lia) RealTimeStatus_add_spec).
  rewrite !buffer_snoc. simpl.
  replace (length xs - 50)%nat with 0%nat by lia.
  replace (length ys - 20)%nat with 0%nat by lia.
  split; reflexivity.
Qed.


End LoggerFacts.

(** Sixty entries after two others. *)
Lemma logger_shows_the_last_ten_witness :
  ProcessLogs.AIProcessLogger_shown
    (ProcessLogs.buffer ProcessLogs.DataGenerator_setProcessLogs
       ([ProcessLogs.Append 0%nat; ProcessLogs.Append 0%nat] ++ map ProcessLogs.Append (seq 1 60)))
  = seq 51 10.
Proof.
  destruct (logger_shows_the_last_ten [ProcessLogs.Append 0%nat; ProcessLogs.Append 0%nat] (seq 1 60))
    as [H _]; [vm_compute; lia|].
  rewrite H. reflexivity.
Defined.

(** Fifty entries, and twenty, after a clear. *)
Lemma nothing_lost_below_capacity_witness :
  ProcessLogs.buffer ProcessLogs.DataGenerator_setProcessLogs
    ([ProcessLogs.Append 0%nat] ++ ProcessLogs.Clear :: map ProcessLogs.Append (seq 1 50)) = seq 1 50
  /\ ProcessLogs.buffer ProcessLogs.RealTimeStatus_setProcessLogs
       ([ProcessLogs.Append 0%nat] ++ ProcessLogs.Clear :: map ProcessLogs.Append (seq 1 20)) = seq 1 20.
Proof.
  apply (nothing_lost_below_capacity [ProcessLogs.Append 0%nat] (seq 1 50) (seq 1 20));
    vm_compute; lia.
Defined.

(** ** The model store *)

Section StoreMoreFacts.
Import Js Json ModelProvider.
Local Open Scope Z_scope.

(** X16. [setModel] and [removeModel] write the one key of the
    configuration: every other entry of the storage is left as it is. *)
Theorem only_the_configuration_key_is_written
    (st : Store) (config : ModelConfig) (k : list Z) :
  k <> storage_key ->
  localStorage (setModel config st) !! k = localStorage st !! k
  /\ localStorage (removeModel st) !! k = localStorage st !! k.
Proof.
  intros Hk. unfold setModel, removeModel. cbn [localStorage].
  rewrite lookup_insert_ne, lookup_delete_ne by congruence.
  split; reflexivity.
Qed.

Lemma only_the_configuration_key_is_written_witness :
  localStorage (setModel openai_config themed_store) !! lit "theme" = Some (lit "dark")
  /\ localStorage (removeModel themed_store) !! lit "theme" = Some (lit "dark").
Proof.
  assert (Hk : lit "theme" <> storage_key) by (vm_compute; discriminate).
  destruct (only_the_configuration_key_is_written themed_store openai_config _ Hk)
    as [H1 H2].
  rewrite H1, H2. split; reflexivity.
Defined.

(** X17. [setModel] replaces the configuration wholesale, in memory and in
    the storage: what was set or removed before leaves no trace.
    [removeModel] undoes any [setModel], and after it a reload finds no
    configuration. *)
Theorem set_and_remove_overwrite (st : Store) (c1 c2 : ModelConfig) :
  setModel c2 (setModel c1 st) = setModel c2 st
  /\ setModel c2 (removeModel st) = setModel c2 st
  /\ removeModel (setModel c1 st) = removeModel st
  /\ currentModel (reload (removeModel st)) = None
  /\ currentModel (reload (removeModel (setModel c1 st))) = None.
Proof.
  unfold setModel, removeModel, reload, load. cbn [localStorage currentModel].
  rewrite insert_insert_eq, insert_delete_eq, delete_insert_eq, !lookup_delete_eq.
  repeat split; reflexivity.
Qed.

Lemma to_object_inj c1 c2 : to_object c1 = to_object c2 -> c1 = c2.
Proof.
  destruct c1 as [p1 m1 k1 [e1|]], c2 as [p2 m2 k2 [e2|]]; unfold to_object; simpl;
    intros H; injection H; intros; subst; try reflexivity; discriminate.
Qed.

(** X18. Two different configurations are never stored as the same text:
    provider, model, key and endpoint can all be read back from what
    [setModel] writes. *)
Theorem stored_text_determines_the_configuration
    (st st' : Store) (c1 c2 : ModelConfig) :
  wf_config c1 ->
  wf_config c2 ->
  c1 <> c2 ->
  localStorage (setModel c1 st) !! storage_key
    <> localStorage (setModel c2 st') !! storage_key.
Proof.
  intros Hw1 Hw2 Hne. unfold setModel. cbn [localStorage].
  rewrite !lookup_insert_eq. intros Hsome.
  assert (Htext : stringify (to_object c1) = stringify (to_object c2))
    by congruence.
  apply Hne, to_object_inj.
  pose proof (parse_stringify_config c1 Hw1) as H1.
  pose proof (parse_stringify_config c2 Hw2) as H2.
  rewrite Htext in H1. congruence.
Qed.

(** The same provider and model, with and without a key. *)
Lemma stored_text_determines_the_configuration_witness :
  localStorage (setModel openai_config empty_store) !! storage_key
    <> localStorage (setModel openai_no_key themed_store) !! storage_key.
Proof.
  apply (stored_text_determines_the_configuration empty_store themed_store);
    [| |discriminate];
    unfold wf_config, wf_string, code_unit; simpl;
    repeat split; repeat constructor; lia.
Defined.

End StoreMoreFacts.

(** ** The save handler *)

Section SaveFacts.
Import Js Json ModelProvider ModelSelector.
Local Open Scope Z_scope.

Lemma trim_start_head s :
  match trim_start s with
  | c :: _ => is_space c = false
  | [] => True
  end.
Proof.
  induction s as [|c s IH]; simpl; [trivial|].
  destruct (is_space c) eqn:Hc; [exact IH | exact Hc].
Qed.

(** [trim_start] keeps a suffix. *)
Lemma trim_start_suffix s : exists pre, s = pre ++ trim_start s.
Proof.
  induction s as [|c s [pre IH]]; [exists []; reflexivity|].
  simpl. destruct (is_space c).
  - exists (c :: pre). simpl. f_equal. exact IH.
  - exists []. reflexivity.
Qed.

Lemma trim_start_wf s : wf_string s -> wf_string (trim_start s).
Proof.
  intros Hwf. destruct (trim_start_suffix s) as [pre Hs].
  unfold wf_string in *. rewrite Hs in Hwf. apply Forall_app in Hwf. tauto.
Qed.

Lemma trim_wf s : wf_string s -> wf_string (trim s).
Proof.
  intros Hwf. unfold trim, wf_string.
  apply Forall_rev, trim_start_wf, Forall_rev, trim_start_wf, Hwf.
Qed.

(** What [trim] returns neither starts nor ends with white space. *)
Lemma trim_ends s :
  trim s = []
  \/ exists c d, head (trim s) = Some c /\ last (trim s) = Some d
                 /\ is_space c = false /\ is_space d = false.
Proof.
  unfold trim.
  pose proof (trim_start_head (rev (trim_start s))) as Hd.
  destruct (trim_start_suffix (rev (trim_start s))) as [pre Hpre].
  destruct (trim_start (rev (trim_start s))) as [|d l]; [left; reflexivity|].
  right.
  assert (Hlast : last (rev (d :: l)) = Some d) by (simpl; apply last_snoc).
  assert (Ht : trim_start s = rev (d :: l) ++ rev pre).
  { rewrite <- rev_app_distr, <- Hpre. symmetry. apply rev_involutive. }
  pose proof (trim_start_head s) as Hc. rewrite Ht in Hc.
  destruct (rev (d :: l)) as [|c u] eqn:Hu; [discriminate|].
  exists c, d. simpl in Hc. repeat split; assumption || reflexivity.
Qed.

Lemma config_of_wf s : wf_selector s -> wf_config (config_of s).
Proof.
  intros (Hp & Hm & Hk & He). unfold wf_config, config_of. simpl.
  repeat split; try assumption; [apply trim_wf, Hk|].
  destruct (decide _); [exact He | exact I].
Qed.

Lemma handleSave_store configure_ok test_ok s st :
  (handleSave configure_ok test_ok s st).1.2
  = (if passes_validation s && configure_ok then setModel (config_of s) st else st).
Proof.
  unfold handleSave, passes_validation.
  destruct (bool_decide (selectedProvider s = lit "ollama")),
           (bool_decide (trim (apiKey s) = [])); simpl;
    destruct configure_ok, test_ok; reflexivity.
Qed.

(** X19. [handleSave] writes the store exactly when the check of the key
    passes and [configureAI] resolves, and then with the configuration it
    built; whether [testAIConnection] resolves plays no part.  It makes no
    request when the check fails, one when [configureAI] rejects, two
    otherwise. *)
Theorem save_writes_iff_configured
    (configure_ok test_ok : bool) (s : Selector) (st : Store) :
  (handleSave configure_ok test_ok s st).1.2
  = (if passes_validation s && configure_ok then setModel (config_of s) st else st)
  /\ length (handleSave configure_ok test_ok s st).2
     = (if passes_validation s then if configure_ok then 2 else 1 else 0)%nat
  /\ (handleSave configure_ok test_ok s st).1.2
     = (handleSave configure_ok (negb test_ok) s st).1.2.
Proof.
  unfold handleSave, passes_validation.
  destruct (bool_decide (selectedProvider s = lit "ollama")),
           (bool_decide (trim (apiKey s) = [])); simpl;
    destruct configure_ok, test_ok; simpl; repeat split; reflexivity.
Qed.

(** X20. A selection that passes the check and that the backend accepts
    survives a reload: the configuration found in memory afterwards is the
    one [handleSave] built, with the key trimmed, so that it neither
    starts nor ends with white space, and with an endpoint exactly when the
    provider is [ollama]. *)
Theorem saved_selection_survives_reload
    (test_ok : bool) (s : Selector) (st : Store) :
  wf_selector s ->
  passes_validation s = true ->
  currentModel (reload (handleSave true test_ok s st).1.2)
  = Some (to_object (config_of s))
  /\ ModelProvider.apiKey (config_of s) = trim (apiKey s)
  /\ (trim (apiKey s) = []
      \/ exists c d, head (trim (apiKey s)) = Some c /\ last (trim (apiKey s)) = Some d
                     /\ is_space c = false /\ is_space d = false)
  /\ (is_Some (ModelProvider.endpoint (config_of s))
      <-> selectedProvider s = lit "ollama").
Proof.
  intros Hwf Hpass.
  rewrite handleSave_store, Hpass. cbn [andb].
  assert (Hload : load (localStorage (setModel (config_of s) st))
                  = Some (to_object (config_of s))).
  { unfold load, setModel. cbn [localStorage]. rewrite lookup_insert_eq.
    rewrite parse_stringify_config by (apply config_of_wf, Hwf). reflexivity. }
  unfold reload. cbn [currentModel]. rewrite Hload.
  split; [reflexivity|]. split; [reflexivity|]. split; [apply trim_ends|].
  unfold config_of. simpl. destruct (decide (selectedProvider s = lit "ollama")).
  - split; [intros _; assumption | intros _; eexists; reflexivity].
  - split; [intros [x Hx]; discriminate | intros; contradiction].
Qed.

Lemma saved_selection_survives_reload_witness :
  currentModel (reload (handleSave true false gemini_selection empty_store).1.2)
  = Some [(lit "provider", lit "gemini"); (lit "model", lit "gemini-1.5-flash");
          (lit "apiKey", lit "AIza-key")]
  /\ currentModel (reload (handleSave true true ollama_selection empty_store).1.2)
     = Some [(lit "provider", lit "ollama"); (lit "model", lit "llama3:8b");
             (lit "apiKey", []); (lit "endpoint", lit "http://localhost:11434")].
Proof.
  split.
  - destruct (saved_selection_survives_reload false gemini_selection empty_store)
      as [H _]; [|vm_compute; reflexivity|rewrite H; vm_compute; reflexivity].
    unfold wf_selector, wf_string, code_unit. simpl.
    repeat split; repeat constructor; lia.
  - destruct (saved_selection_survives_reload true ollama_selection empty_store)
      as [H _]; [|vm_compute; reflexivity|rewrite H; vm_compute; reflexivity].
    unfold wf_selector, wf_string, code_unit. simpl.
    repeat split; repeat constructor; lia.
Defined.

End SaveFacts.

(** ** The health monitors *)

Section MonitorFacts.
Import Js ApiService SystemStatus.
Local Open Scope Z_scope.

(** X21. From one health response the hook and [RealTimeStatus] derive the
    same backend health and the same activity of the agents, and [Layout]
    shows [online] exactly when the backend is healthy; but they agree on
    the state of the AI engine only when the response reports it ['ready']:
    otherwise the hook says [online] and [RealTimeStatus] says [offline].
    When the health check throws, both say [offline]. *)
Theorem monitors_agree_but_for_gemini
    (rt now now' : Z) (prev : RealTimeStatus.BackendStatus)
    (r : HealthResponse) (e : Thrown) :
  RealTimeStatus.healthy (RealTimeStatus.checkHealth now prev (Ret r))
  = backend_healthy (backend (newStatus rt now' r))
  /\ RealTimeStatus.agentsActive (RealTimeStatus.checkHealth now prev (Ret r))
     = active (agents (newStatus rt now' r))
  /\ bool_decide (Layout.checkStatus (Ret r) = Layout.online)
     = backend_healthy (backend (newStatus rt now' r))
  /\ bool_decide (RealTimeStatus.geminiStatus (RealTimeStatus.checkHealth now prev (Ret r))
                  = gemini_status (gemini (newStatus rt now' r)))
     = is_string (opt_member (services_gemini r) (lit "status")) (lit "ready")
  /\ gemini_status (gemini (newStatus rt now' r)) = online
  /\ RealTimeStatus.geminiStatus (RealTimeStatus.checkHealth now prev (Throw e))
     = gemini_status (gemini (errorStatus now' e)).
Proof.
  simpl. destruct (ApiService.healthy r), (is_string _ (lit "ready"));
    repeat split; reflexivity.
Qed.

Lemma page_step_gemini p e :
  DataGeneratorPage.geminiStatus (DataGeneratorPage.step p e) = online
  \/ DataGeneratorPage.geminiStatus (DataGeneratorPage.step p e)
     = DataGeneratorPage.geminiStatus p.
Proof.
  destruct e as [now request|request]; simpl.
  - destruct (truthy _); [left; destruct (is_string _ _); reflexivity | right; reflexivity].
  - unfold DataGeneratorPage.checkAIConfiguration.
    destruct (mbind _ _) as [configured|err]; simpl; [|right; reflexivity].
    destruct (truthy configured); [left | right]; reflexivity.
Qed.

Lemma page_run_snoc evs e :
  DataGeneratorPage.run (evs ++ [e])
  = DataGeneratorPage.step (DataGeneratorPage.run evs) e.
Proof. unfold DataGeneratorPage.run. rewrite fold_left_app. reflexivity. Qed.

(** X22. Wired to [ApiService], the DataGenerator page never shows the AI
    engine [offline]: after any sequence of health checks and checks of the
    AI configuration, whatever the requests answered, its state is
    [unknown] or [online], and once [online] it stays so. *)
Theorem page_never_shows_gemini_offline (evs more : list DataGeneratorPage.Event) :
  DataGeneratorPage.geminiStatus (DataGeneratorPage.run evs) <> offline
  /\ (DataGeneratorPage.geminiStatus (DataGeneratorPage.run evs) = unknown
      \/ DataGeneratorPage.geminiStatus (DataGeneratorPage.run (evs ++ more)) = online).
Proof.
  assert (Hinv : forall l, DataGeneratorPage.geminiStatus (DataGeneratorPage.run l) = unknown
                           \/ DataGeneratorPage.geminiStatus (DataGeneratorPage.run l) = online).
  { induction l as [|e l IH] using rev_ind; [left; reflexivity|].
    rewrite page_run_snoc.
    destruct (page_step_gemini (DataGeneratorPage.run l) e) as [->| ->];
      [right; reflexivity | exact IH]. }
  split; [destruct (Hinv evs) as [-> | ->]; discriminate|].
  destruct (Hinv evs) as [Hu|Ho]; [left; exact Hu|right].
  induction more as [|e more IH] using rev_ind; [rewrite app_nil_r; exact Ho|].
  rewrite app_assoc, page_run_snoc.
  destruct (page_step_gemini (DataGeneratorPage.run (evs ++ more)) e) as [->| ->];
    [reflexivity | exact IH].
Qed.

End MonitorFacts.

(** ** The generation service *)

Section GenerationFacts.
Import Js ApiService DataGeneratorService.
Local Open Scope Z_scope.

Lemma dataset_of_returns isoNow p result d :
  dataset_of isoNow p result = Ret d ->
  exists rows columns,
    get result (lit "data") = JArr rows
    /\ columns_of rows = Ret columns
    /\ data d = rows
    /\ rowsGenerated (metadata d) = Z.of_nat (length rows)
    /\ columnsGenerated (metadata d) = columns
    /\ config (metadata d) = payload_config p.
Proof.
  unfold dataset_of.
  destruct (negb (truthy result) || negb (truthy (get result (lit "data"))));
    [discriminate|].
  destruct (get result (lit "data")) as [| | | | |rows|]; try discriminate.
  unfold mbind, outcome_bind, bind.
  destruct (columns_of rows) as [columns|e] eqn:Hc; [|discriminate].
  intros [= <-]. exists rows, columns. repeat split; reflexivity || assumption.
Qed.

Lemma columns_of_nonneg rows columns :
  columns_of rows = Ret columns ->
  0 <= columns /\ (rows = [] -> columns = 0).
Proof.
  destruct rows as [|first rows]; simpl.
  - intros [= <-]. split; [lia | reflexivity].
  - unfold mbind, outcome_bind, bind.
    destruct (Object_values first) as [vals|e]; [|discriminate].
    intros [= <-]. split; [lia | discriminate].
Qed.

(** X23. Whatever goes wrong in [generateSyntheticDataset] (the check of
    the options, a request that fails, a response without an array of
    data, a first row that is [null]), the caller gets an [Error] whose
    message is ['Data generation failed: '], the reason, and the advice to
    check the API configuration. *)
Theorem generation_errors_are_wrapped
    (isoNow : list Z) (options : DatasetGenerationOptions)
    (status : AxiosOutcome) (post : list Z -> AxiosOutcome) (e : Thrown) :
  fst (generateSyntheticDataset isoNow options status post) = Throw e ->
  exists reason,
    e = ErrorObject
          (lit "Data generation failed: " ++ reason
           ++ lit ". Please check your API configuration or try again later.").
Proof.
  unfold generateSyntheticDataset.
  destruct (_ || _); cbn [fst].
  - intros [= <-]. eexists. reflexivity.
  - destruct (mbind _ _) as [d|e']; [discriminate|].
    intros [= <-]. unfold generation_failed. eexists. reflexivity.
Qed.

(** The backend answers with something that is not a table. *)
Lemma generation_errors_are_wrapped_witness :
  fst (generateSyntheticDataset (lit "2025-01-01T00:00:00.000Z") retail_options
         (AxiosError (ErrorObject (lit "Network Error")))
         (fun _ => AxiosResponse 200 (JObj {[ lit "data" := JStr (lit "none") ]})))
  = Throw (ErrorObject
             (lit "Data generation failed: Invalid data format received from backend. Please check your API configuration or try again later.")).
Proof.
  destruct (generation_errors_are_wrapped (lit "2025-01-01T00:00:00.000Z") retail_options
              (AxiosError (ErrorObject (lit "Network Error")))
              (fun _ => AxiosResponse 200 (JObj {[ lit "data" := JStr (lit "none") ]}))
              (ErrorObject
                 (lit "Data generation failed: Invalid data format received from backend. Please check your API configuration or try again later.")))
    as [reason Hr]; [vm_compute; reflexivity|].
  vm_compute. reflexivity.
Defined.

(** X24. With an empty domain or an empty data type,
    [generateSyntheticDataset] makes no request and rejects with
    ['Data generation failed: Domain and data type are required. ...']. *)
Theorem generation_needs_domain_and_type
    (isoNow : list Z) (options : DatasetGenerationOptions)
    (status : AxiosOutcome) (post : list Z -> AxiosOutcome) :
  domain options = [] \/ data_type options = [] ->
  generateSyntheticDataset isoNow options status post
  = (Throw (ErrorObject
              (lit "Data generation failed: Domain and data type are required. Please check your API configuration or try again later.")),
     []).
Proof.
  intros Hempty. unfold generateSyntheticDataset. cbn [payload_of payload_config
    config_domain config_data_type].
  replace (bool_decide (domain options = []) || bool_decide (data_type options = []))
    with true; [reflexivity|].
  symmetry. apply orb_true_iff.
  destruct Hempty as [H|H]; [left | right]; apply bool_decide_eq_true_2, H.
Qed.

Lemma generation_needs_domain_and_type_witness :
  snd (generateSyntheticDataset [] no_domain_options
         (AxiosResponse 200 (JObj {[ lit "is_configured" := JBool true ]}))
         (fun _ => AxiosResponse 200 (JObj {[ lit "data" := JArr [] ]}))) = [].
Proof.
  rewrite (generation_needs_domain_and_type [] no_domain_options); [reflexivity|].
  left. reflexivity.
Defined.

(** X25. When [generateSyntheticDataset] returns, the domain and the data
    type were not empty, the configuration echoed in the metadata asks
    for at most 100 rows (100 when the options give none or 0), the rows
    are those of the response, [rowsGenerated] is their number, and
    [columnsGenerated] is not negative and is 0 when there is no row. *)
Theorem generation_result_is_consistent
    (isoNow : list Z) (options : DatasetGenerationOptions)
    (status : AxiosOutcome) (post : list Z -> AxiosOutcome) (d : Dataset) :
  fst (generateSyntheticDataset isoNow options status post) = Ret d ->
  domain options <> [] /\ data_type options <> []
  /\ config_rowCount (config (metadata d)) = capped_rowCount (rowCount options)
  /\ config_rowCount (config (metadata d)) <= 100
  /\ (rowCount options = None \/ rowCount options = Some 0 ->
      config_rowCount (config (metadata d)) = 100)
  /\ rowsGenerated (metadata d) = Z.of_nat (length (data d))
  /\ 0 <= columnsGenerated (metadata d)
  /\ (data d = [] -> columnsGenerated (metadata d) = 0)
  /\ (exists endpoint st body,
        snd (generateSyntheticDataset isoNow options status post) = [endpoint]
        /\ post endpoint = AxiosResponse st body
        /\ get body (lit "data") = JArr (data d)).
Proof.
  unfold generateSyntheticDataset. cbn [payload_of payload_config
    config_domain config_data_type].
  destruct (bool_decide (domain options = [])) eqn:Hd; [discriminate|].
  destruct (bool_decide (data_type options = [])) eqn:Ht; [discriminate|].
  apply bool_decide_eq_false in Hd, Ht. cbn [orb fst snd].
  unfold generateSyntheticData.
  destruct (member _ (lit "is_configured")) as [configured|e]; cbn [fst snd];
    [|discriminate].
  set (endpoint := if truthy configured then _ else _).
  destruct (post endpoint) as [st body|e] eqn:Hpost; [|discriminate].
  unfold mbind at 1, outcome_bind, bind.
  destruct (dataset_of _ _ body) as [d'|e] eqn:Hds; [|discriminate].
  intros [= <-].
  destruct (dataset_of_returns _ _ _ _ Hds)
    as (rows & columns & Hrows & Hcols & Hdata & Hn & Hc & Hcfg).
  destruct (columns_of_nonneg rows columns Hcols) as [Hnn Hzero].
  rewrite Hcfg, Hn, Hc, Hdata. cbn [payload_of payload_config config_rowCount].
  split; [exact Hd|]. split; [exact Ht|]. split; [reflexivity|].
  split; [apply Z.le_min_r|].
  split; [intros [-> | ->]; reflexivity|].
  split; [reflexivity|]. split; [exact Hnn|]. split; [exact Hzero|].
  exists endpoint, st, body. repeat split; assumption.
Qed.

(** The defaults of the page, 10000 rows, and a backend that sends two. *)
Lemma generation_result_is_consistent_witness :
  exists d,
    fst (generateSyntheticDataset [] retail_options
           (AxiosResponse 200 (JObj {[ lit "is_configured" := JBool true ]}))
           (fun _ => AxiosResponse 200 two_rows)) = Ret d
    /\ config_rowCount (config (metadata d)) = 100
    /\ rowsGenerated (metadata d) = 2
    /\ columnsGenerated (metadata d) = 1.
Proof.
  eexists. split; [vm_compute; reflexivity|].
  match goal with
  | |- config_rowCount (config (metadata ?d)) = _ /\ _ =>
      destruct (generation_result_is_consistent [] retail_options
                  (AxiosResponse 200 (JObj {[ lit "is_configured" := JBool true ]}))
                  (fun _ => AxiosResponse 200 two_rows) d)
        as (_ & _ & H3 & _); [vm_compute; reflexivity|]
  end.
  split; [rewrite H3; reflexivity|]. split; reflexivity.
Defined.

(** X26. With a domain and a data type, [generateSyntheticDataset] posts
    once: to the local generation when [/ai/status] fails or does not
    report [is_configured], to ['/generation/start'] when it does.  It
    posts nothing when the body of [/ai/status] is [null]. *)
Theorem generation_endpoint
    (isoNow : list Z) (options : DatasetGenerationOptions)
    (post : list Z -> AxiosOutcome) :
  domain options <> [] ->
  data_type options <> [] ->
  (forall e, snd (generateSyntheticDataset isoNow options (AxiosError e) post)
             = [lit "/generation/generate-local"])
  /\ (forall st body,
        nullish body = false ->
        snd (generateSyntheticDataset isoNow options (AxiosResponse st body) post)
        = [if truthy (get body (lit "is_configured"))
           then lit "/generation/start"
           else lit "/generation/generate-local"])
  /\ (forall st body,
        nullish body = true ->
        snd (generateSyntheticDataset isoNow options (AxiosResponse st body) post) = []).
Proof.
  intros Hd Ht. unfold generateSyntheticDataset. cbn [payload_of payload_config
    config_domain config_data_type].
  rewrite (bool_decide_eq_false_2 _ Hd), (bool_decide_eq_false_2 _ Ht). cbn [orb snd].
  split; [intros e; reflexivity|]. split.
  - intros st body Hn. unfold generateSyntheticData, getAIStatus, member.
    rewrite Hn. reflexivity.
  - intros st body Hn. unfold generateSyntheticData, getAIStatus, member.
    rewrite Hn. reflexivity.
Qed.

Lemma generation_endpoint_witness :
  snd (generateSyntheticDataset [] retail_options
         (AxiosError (ErrorObject (lit "Network Error")))
         (fun _ => AxiosResponse 200 two_rows))
  = [lit "/generation/generate-local"].
Proof.
  destruct (generation_endpoint [] retail_options (fun _ => AxiosResponse 200 two_rows))
    as (H & _); [vm_compute; discriminate | vm_compute; discriminate|].
  apply H.
Defined.

End GenerationFacts.

(** ** CSV texts *)

Section CsvFacts.
Import Js Json Csv.
Local Open Scope Z_scope.

Lemma split_plain sep s : Forall (fun c => c <> sep) s -> split sep s = [s].
Proof.
  induction s as [|c s IH]; intros Hs; [reflexivity|].
  simpl. destruct (Z.eqb_spec c sep) as [->|_].
  - exfalso. exact (Forall_inv Hs eq_refl).
  - rewrite IH by exact (Forall_inv_tail Hs). reflexivity.
Qed.

Lemma split_field sep field rest :
  Forall (fun c => c <> sep) field ->
  split sep (field ++ sep :: rest) = field :: split sep rest.
Proof.
  induction field as [|c field IH]; intros Hf; simpl.
  - rewrite Z.eqb_refl. reflexivity.
  - destruct (Z.eqb_spec c sep) as [->|_].
    + exfalso. exact (Forall_inv Hf eq_refl).
    + rewrite IH by exact (Forall_inv_tail Hf). reflexivity.
Qed.

(** Splitting what was joined gives the fields back when none of them
    holds the separator. *)
Lemma split_join sep fields :
  fields <> [] ->
  Forall (Forall (fun c => c <> sep)) fields ->
  split sep (join sep fields) = fields.
Proof.
  induction fields as [|field [|field' fields] IH]; intros Hne Hf; [congruence| |].
  - simpl. apply split_plain. exact (Forall_inv Hf).
  - change (join sep (field :: field' :: fields))
      with (field ++ sep :: join sep (field' :: fields)).
    rewrite split_field by exact (Forall_inv Hf).
    rewrite IH; [reflexivity | discriminate | exact (Forall_inv_tail Hf)].
Qed.

Lemma join_without sep sep' fields :
  sep <> sep' ->
  Forall (Forall (fun c => c <> sep')) fields ->
  Forall (fun c => c <> sep') (join sep fields).
Proof.
  intros Hsep. induction fields as [|field [|field' fields] IH]; intros Hf.
  - constructor.
  - exact (Forall_inv Hf).
  - change (join sep (field :: field' :: fields))
      with (field ++ sep :: join sep (field' :: fields)).
    apply Forall_app. split; [exact (Forall_inv Hf)|].
    constructor; [exact Hsep | exact (IH (Forall_inv_tail Hf))].
Qed.

Lemma trim_start_keeps s :
  match s with c :: _ => ModelSelector.is_space c = false | [] => True end ->
  ModelSelector.trim_start s = s.
Proof. destruct s as [|c s]; [reflexivity|]. simpl. intros ->. reflexivity. Qed.

(** [trim] keeps a string that neither starts nor ends with white space. *)
Lemma trim_keeps s c d :
  head s = Some c -> last s = Some d ->
  ModelSelector.is_space c = false -> ModelSelector.is_space d = false ->
  ModelSelector.trim s = s.
Proof.
  intros Hh Hl Hc Hd. unfold ModelSelector.trim.
  rewrite (trim_start_keeps s) by (destruct s; [discriminate|]; simpl in Hh; congruence).
  rewrite trim_start_keeps; [apply rev_involutive|].
  destruct (rev s) as [|x r] eqn:Hr; [trivial|].
  apply (f_equal (@rev Z)) in Hr. rewrite rev_involutive in Hr. simpl in Hr.
  rewrite Hr, last_snoc in Hl. congruence.
Qed.

Lemma strip_quotes_plain s : Forall (fun c => c <> 34) s -> strip_quotes s = s.
Proof.
  unfold strip_quotes. induction s as [|c s IH]; intros Hs; [reflexivity|].
  rewrite filter_cons_True by exact (Forall_inv Hs).
  rewrite IH by exact (Forall_inv_tail Hs). reflexivity.
Qed.

Lemma double_quotes_plain s : Forall (fun c => c <> 34) s -> double_quotes s = s.
Proof.
  unfold double_quotes. induction s as [|c s IH]; intros Hs; [reflexivity|].
  simpl. destruct (Z.eqb_spec c 34) as [->|_].
  - exfalso. exact (Forall_inv Hs eq_refl).
  - rewrite IH by exact (Forall_inv_tail Hs). reflexivity.
Qed.

Lemma plain_no_comma s : plain s -> Forall (fun c => c <> 44) s.
Proof. intros Hs. eapply Forall_impl; [exact Hs|]. simpl. tauto. Qed.

Lemma plain_no_newline s : plain s -> Forall (fun c => c <> 10) s.
Proof. intros Hs. eapply Forall_impl; [exact Hs|]. simpl. tauto. Qed.

Lemma plain_no_quote s : plain s -> Forall (fun c => c <> 34) s.
Proof. intros Hs. eapply Forall_impl; [exact Hs|]. simpl. tauto. Qed.

(** A plain string between quotes is read back as it was. *)
Lemma quoted_field s :
  plain s ->
  strip_quotes (ModelSelector.trim (exported (CellString s))) = s.
Proof.
  intros Hs. unfold exported.
  rewrite double_quotes_plain by (apply plain_no_quote, Hs).
  rewrite (trim_keeps (34 :: s ++ [34]) 34 34);
    [|reflexivity|rewrite app_comm_cons; apply last_snoc|reflexivity|reflexivity].
  unfold strip_quotes.
  rewrite filter_cons_False by (intros H; apply H; reflexivity).
  rewrite filter_app, filter_cons_False by (intros H; apply H; reflexivity).
  rewrite filter_nil, app_nil_r.
  apply strip_quotes_plain, plain_no_quote, Hs.
Qed.

Lemma exported_no_comma s :
  plain s -> Forall (fun c => c <> 44) (exported (CellString s)).
Proof.
  intros Hs. unfold exported.
  rewrite double_quotes_plain by (apply plain_no_quote, Hs).
  constructor; [discriminate|]. apply Forall_app. split; [apply plain_no_comma, Hs|].
  constructor; [discriminate | constructor].
Qed.

Lemma exported_no_newline s :
  plain s -> Forall (fun c => c <> 10) (exported (CellString s)).
Proof.
  intros Hs. unfold exported.
  rewrite double_quotes_plain by (apply plain_no_quote, Hs).
  constructor; [discriminate|]. apply Forall_app. split; [apply plain_no_newline, Hs|].
  constructor; [discriminate | constructor].
Qed.

(** The line of a row of plain values is read back as its values. *)
Lemma fields_of_exported values :
  values <> [] -> Forall plain values ->
  fields_of (join 44 (map (fun v => exported (CellString v)) values)) = values.
Proof.
  intros Hne Hp. unfold fields_of.
  rewrite split_join.
  - rewrite map_map. rewrite <- (map_id values) at 2.
    apply map_ext_in. intros v Hv. apply quoted_field.
    rewrite Forall_forall in Hp. apply Hp, list_elem_of_In, Hv.
  - destruct values; [congruence | discriminate].
  - apply Forall_map. eapply Forall_impl; [exact Hp|].
    intros v Hv. apply exported_no_comma, Hv.
Qed.

(** The line of the headers is read back as the headers. *)
Lemma fields_of_headers headers :
  headers <> [] ->
  Forall (fun h => h <> [] /\ plain h /\ ModelSelector.trim h = h) headers ->
  fields_of (join 44 headers) = headers.
Proof.
  intros Hne Hh. unfold fields_of.
  rewrite split_join; [|exact Hne|].
  - rewrite <- (map_id headers) at 2.
    apply map_ext_in. intros h Hin.
    rewrite Forall_forall in Hh. destruct (Hh h) as (_ & Hp & ->);
      [apply list_elem_of_In, Hin|].
    apply strip_quotes_plain, plain_no_quote, Hp.
  - eapply Forall_impl; [exact Hh|]. intros h (_ & Hp & _).
    apply plain_no_comma, Hp.
Qed.

Lemma obj_set_fresh (acc : Obj) k v :
  k ∉ map fst acc -> obj_set acc k v = acc ++ [(k, v)].
Proof.
  induction acc as [|[k' v'] acc IH]; intros Hk; [reflexivity|].
  simpl. destruct (decide (k' = k)) as [->|Hne].
  - exfalso. apply Hk. simpl. left.
  - rewrite IH; [reflexivity|]. intros Hin. apply Hk. simpl. right. exact Hin.
Qed.

Lemma obj_set_keys (acc : Obj) k v k0 :
  k0 ∈ map fst (obj_set acc k v) <-> k0 = k \/ k0 ∈ map fst acc.
Proof.
  induction acc as [|[k' v'] acc IH]; simpl.
  - rewrite list_elem_of_singleton, elem_of_nil. tauto.
  - destruct (decide (k' = k)) as [->|Hne]; simpl.
    + rewrite !elem_of_cons. tauto.
    + rewrite !elem_of_cons, IH. tauto.
Qed.

Lemma obj_set_NoDup (acc : Obj) k v :
  NoDup (map fst acc) -> NoDup (map fst (obj_set acc k v)).
Proof.
  induction acc as [|[k' v'] acc IH]; simpl; intros Hnd.
  - apply NoDup_singleton.
  - destruct (decide (k' = k)) as [->|Hne]; simpl; [exact Hnd|].
    apply NoDup_cons in Hnd as [Hnotin Hnd].
    apply NoDup_cons. split; [|apply IH, Hnd].
    rewrite obj_set_keys. intros [->|Hin]; [congruence | contradiction].
Qed.

(** Setting properties with fresh, distinct names appends them. *)
Lemma set_fresh_properties (o : Obj) : forall acc : Obj,
  NoDup (map fst acc ++ map fst o) ->
  lit "__proto__" ∉ map fst o ->
  fold_left (fun row hv => assign row (fst hv) (snd hv)) o acc = acc ++ o.
Proof.
  induction o as [|[k v] o IH]; intros acc Hnd Hproto; simpl.
  - rewrite app_nil_r. reflexivity.
  - unfold assign at 2. cbn [fst snd].
    rewrite decide_False by (intros ->; apply Hproto; simpl; left).
    rewrite obj_set_fresh.
    + rewrite IH; [rewrite <- app_assoc; reflexivity| |].
      * rewrite map_app. simpl. rewrite <- app_assoc. exact Hnd.
      * intros Hin. apply Hproto. simpl. right. exact Hin.
    + apply NoDup_app in Hnd as (_ & Hdisj & _).
      intros Hin. apply (Hdisj k Hin). simpl. left.
Qed.

Lemma row_of_row (row : Obj) :
  NoDup (map fst row) -> lit "__proto__" ∉ map fst row ->
  row_of (map fst row) (map snd row) = row.
Proof.
  intros Hnd Hproto. unfold row_of.
  change (zip (map fst row) (map snd row)) with (zip (row.*1) (row.*2)).
  rewrite zip_fst_snd. apply (set_fresh_properties row []); assumption.
Qed.

Lemma cell_cons k c row h :
  cell ((k, c) :: row) h = if decide (k = h) then c else cell row h.
Proof.
  unfold cell. simpl. destruct (decide (k = h)); [reflexivity|].
  destruct (list_find _ row) as [[i kv]|]; reflexivity.
Qed.

(** Reading the properties of a row in their order gives its values. *)
Lemma cells_in_order (row : Obj) :
  NoDup (map fst row) ->
  map (fun h => exported (cell (cells row) h)) (map fst row)
  = map (fun v => exported (CellString v)) (map snd row).
Proof.
  induction row as [|[k v] row IH]; intros Hnd; [reflexivity|].
  simpl in Hnd. apply NoDup_cons in Hnd as [Hk Hnd].
  change (cells ((k, v) :: row)) with ((k, CellString v) :: cells row).
  cbn [map fst snd]. rewrite cell_cons, decide_True by reflexivity. f_equal.
  rewrite <- IH by exact Hnd.
  apply map_ext_in. intros h Hin.
  rewrite cell_cons, decide_False; [reflexivity|].
  intros ->. apply Hk, list_elem_of_In, Hin.
Qed.

Lemma last_map {B C : Type} (f : B -> C) (l : list B) :
  last (map f l) = option_map f (last l).
Proof.
  induction l as [|x [|y l] IH]; [reflexivity | reflexivity |].
  change (map f (x :: y :: l)) with (f x :: map f (y :: l)).
  rewrite !last_cons_cons. exact IH.
Qed.

Lemma join_head sep field fields c :
  head field = Some c -> head (join sep (field :: fields)) = Some c.
Proof.
  destruct field as [|c' field]; [discriminate|].
  intros [= ->]. destruct fields; reflexivity.
Qed.

Lemma join_last sep fields : forall field d,
  last fields = Some field -> last field = Some d ->
  last (join sep fields) = Some d.
Proof.
  induction fields as [|f [|f' fields] IH]; intros field d Hl Hd; [discriminate| |].
  - simpl in Hl. injection Hl as ->. exact Hd.
  - change (join sep (f :: f' :: fields)) with (f ++ sep :: join sep (f' :: fields)).
    rewrite last_app, last_cons.
    rewrite (IH field d); [reflexivity | exact Hl | exact Hd].
Qed.

(** The line of a row of a plain table. *)
Lemma exported_line headers (row : Obj) :
  NoDup headers -> map fst row = headers ->
  join 44 (map (fun h => exported (cell (cells row) h)) headers)
  = join 44 (map (fun v => exported (CellString v)) (map snd row)).
Proof.
  intros Hnd Hk. rewrite <- Hk. rewrite cells_in_order by (rewrite Hk; exact Hnd).
  reflexivity.
Qed.

Lemma rows_of_exported headers (rows : list Obj) :
  headers <> [] -> NoDup headers -> lit "__proto__" ∉ headers ->
  Forall (fun row => map fst row = headers /\ Forall plain (map snd row)) rows ->
  rows_of headers
    (map (fun row => join 44 (map (fun v => exported (CellString v)) (map snd row))) rows)
  = rows.
Proof.
  intros Hne Hnd Hproto.
  induction rows as [|row rows IH]; intros Hrows; [reflexivity|].
  destruct (Forall_inv Hrows) as [Hk Hp].
  unfold rows_of. simpl. fold (rows_of headers).
  assert (Hvals : map snd row <> []).
  { intros Hnil. apply Hne. rewrite <- Hk.
    apply (f_equal (@length _)) in Hnil. rewrite length_map in Hnil.
    destruct row; [reflexivity | discriminate]. }
  rewrite fields_of_exported by assumption.
  rewrite decide_True by (rewrite <- Hk, !length_map; reflexivity).
  rewrite <- Hk at 1. rewrite row_of_row by (rewrite Hk; assumption).
  simpl. f_equal. unfold rows_of in IH. apply IH. exact (Forall_inv_tail Hrows).
Qed.

(** X27. A table of strings comes back from its CSV text: for rows that
    all have the same distinct property names, the names not empty,
    not [__proto__], without white space around, and names and values
    without comma, double quote or line feed, [parseCSV] of what
    [exportData] writes gives the rows back.  White space inside and around the values is
    kept, the quotes written around them protecting it. *)
Theorem csv_round_trip (headers : list (list Z)) (rows : list Obj) :
  plain_table headers rows ->
  parseCSV (exportData_csv (map cells rows)) = Ret rows.
Proof.
  intros (Hrows & Hne & Hnd & Hproto & Hh & Hr).
  destruct rows as [|first rows]; [congruence|]. clear Hrows.
  destruct (Forall_inv Hr) as [Hk _].
  unfold exportData_csv. cbn [map].
  replace (map fst (cells first)) with headers
    by (rewrite <- Hk; unfold cells; rewrite map_map; reflexivity).
  set (line := fun row : Obj =>
         join 44 (map (fun v => exported (CellString v)) (map snd row))).
  assert (Hlines :
    join 44 (map (fun h => exported (cell (cells first) h)) headers)
    :: map (fun row => join 44 (map (fun h => exported (cell row h)) headers))
           (map cells rows)
    = map line (first :: rows)).
  { simpl. f_equal; [apply exported_line; assumption|].
    rewrite map_map. apply map_ext_in. intros row Hin.
    apply exported_line; [exact Hnd|].
    apply Forall_inv_tail in Hr. rewrite Forall_forall in Hr.
    apply (Hr row), list_elem_of_In, Hin. }
  rewrite Hlines. clear Hlines.
  set (text := join 10 (join 44 headers :: map line (first :: rows))).
  assert (Hfields : forall row : Obj,
            row ∈ first :: rows ->
            map snd row <> [] /\ Forall plain (map snd row)).
  { intros row Hin. rewrite Forall_forall in Hr. destruct (Hr row Hin) as [Hkr Hp].
    split; [|exact Hp]. intros Hnil. apply Hne. rewrite <- Hkr.
    apply (f_equal (@length _)) in Hnil. rewrite length_map in Hnil.
    destruct row; [reflexivity | discriminate]. }
  assert (Hnl : Forall (Forall (fun c => c <> 10))
                  (join 44 headers :: map line (first :: rows))).
  { constructor.
    - apply join_without; [discriminate|].
      eapply Forall_impl; [exact Hh|]. intros h (_ & Hp & _).
      apply plain_no_newline, Hp.
    - apply Forall_map, Forall_forall. intros row Hin.
      apply join_without; [discriminate|].
      apply Forall_map. destruct (Hfields row Hin) as [_ Hp].
      eapply Forall_impl; [exact Hp|]. intros v Hv. apply exported_no_newline, Hv. }
  assert (Htrim : ModelSelector.trim text = text).
  { destruct headers as [|h0 hs]; [congruence|].
    destruct (Forall_inv Hh) as (Hh0 & _ & Ht0).
    destruct (trim_ends h0) as [Hnil|(c & d & Hc & _ & Hsc & _)];
      [rewrite Ht0 in Hnil; contradiction|].
    rewrite Ht0 in Hc.
    assert (Hlast : exists row, last (first :: rows) = Some row)
      by (destruct (last (first :: rows)) eqn:Hl;
          [eexists; reflexivity | apply last_None in Hl; discriminate]).
    destruct Hlast as [row Hrow].
    destruct (Hfields row) as [Hvne Hp]; [apply last_Some_elem_of, Hrow|].
    apply (trim_keeps text c 34); [| |exact Hsc|reflexivity].
    - unfold text. apply join_head, join_head, Hc.
    - unfold text. apply (join_last 10 _ (line row)).
      + change (join 44 (h0 :: hs) :: map line (first :: rows))
          with ([join 44 (h0 :: hs)] ++ map line (first :: rows)).
        rewrite last_app, last_map, Hrow. reflexivity.
      + unfold line.
        destruct (last (map snd row)) as [v|] eqn:Hv;
          [|apply last_None in Hv; contradiction].
        apply (join_last 44 _ (exported (CellString v))).
        * rewrite last_map, Hv. reflexivity.
        * unfold exported. rewrite app_comm_cons. apply last_snoc. }
  unfold parseCSV. rewrite Htrim. unfold text.
  rewrite split_join by (discriminate || exact Hnl).
  cbn [map]. rewrite fields_of_headers by assumption.
  f_equal. apply (rows_of_exported headers (first :: rows)); assumption.
Qed.

(** Two people, a value that starts with a space and an empty one. *)
Lemma csv_round_trip_witness :
  parseCSV (exportData_csv (map cells people)) = Ret people.
Proof.
  apply (csv_round_trip [lit "name"; lit "born"] people).
  unfold plain_table. split; [discriminate|]. split; [discriminate|].
  split; [apply NoDup_cons; split; [rewrite list_elem_of_singleton; discriminate
                                    | apply NoDup_singleton]|].
  split; [rewrite !elem_of_cons, elem_of_nil; intros [H|[H|[]]]; discriminate|].
  split.
  - repeat constructor; try discriminate; vm_compute; discriminate.
  - unfold people, plain. repeat constructor; discriminate.
Defined.

Lemma assign_keys (acc : Obj) k v k0 :
  k0 ∈ map fst (assign acc k v)
  <-> (k0 = k /\ k <> lit "__proto__") \/ k0 ∈ map fst acc.
Proof.
  unfold assign. destruct (decide (k = lit "__proto__")) as [->|Hne].
  - split; [auto | intros [[_ H]|H]; [contradiction | exact H]].
  - rewrite obj_set_keys. split; [intros [->|H]; auto | intros [[-> _]|H]; auto].
Qed.

Lemma row_of_keys (o : Obj) : forall (acc : Obj) k,
  k ∈ map fst (fold_left (fun row hv => assign row (fst hv) (snd hv)) o acc)
  <-> (k ∈ map fst o /\ k <> lit "__proto__") \/ k ∈ map fst acc.
Proof.
  induction o as [|[k' v'] o IH]; intros acc k; simpl.
  - rewrite elem_of_nil. tauto.
  - rewrite IH, assign_keys, elem_of_cons. intuition congruence.
Qed.

Lemma row_of_NoDup (o : Obj) : forall acc : Obj,
  NoDup (map fst acc) ->
  NoDup (map fst (fold_left (fun row hv => assign row (fst hv) (snd hv)) o acc)).
Proof.
  induction o as [|[k' v'] o IH]; intros acc Hnd; simpl; [exact Hnd|].
  apply IH. unfold assign. destruct (decide _); [exact Hnd | apply obj_set_NoDup, Hnd].
Qed.

Lemma rows_of_shape headers lines :
  (length (rows_of headers lines) <= length lines)%nat
  /\ Forall (fun row : Obj =>
               NoDup (map fst row)
               /\ forall k, k ∈ map fst row <-> k ∈ headers /\ k <> lit "__proto__")
            (rows_of headers lines).
Proof.
  unfold rows_of. induction lines as [|line lines [IHl IHf]]; simpl.
  - split; [lia | constructor].
  - destruct (decide (length (fields_of line) = length headers)) as [Hlen|_]; simpl.
    + split; [lia|]. constructor; [|exact IHf].
      unfold row_of. split; [apply row_of_NoDup; constructor|].
      intros k. rewrite row_of_keys. simpl. rewrite elem_of_nil.
      change (map fst (zip headers (fields_of line)))
        with ((zip headers (fields_of line)).*1).
      rewrite fst_zip by lia. tauto.
    + split; [lia | exact IHf].
Qed.

Lemma split_not_nil sep s : split sep s <> [].
Proof.
  destruct s as [|c s]; simpl; [discriminate|].
  destruct (c =? sep); [discriminate|]. destruct (split sep s); discriminate.
Qed.

Lemma split_single sep s field :
  split sep s = [field] -> Forall (fun c => c <> sep) s.
Proof.
  revert field. induction s as [|c s IH]; intros field; [constructor|].
  simpl. destruct (Z.eqb_spec c sep) as [->|Hne].
  - pose proof (split_not_nil sep s). destruct (split sep s); [contradiction | discriminate].
  - pose proof (split_not_nil sep s) as Hnn.
    destruct (split sep s) as [|f [|f' fs]]; [contradiction | | discriminate].
    intros _. constructor; [exact Hne | apply (IH f eq_refl)].
Qed.

(** X28. The rows that [parseCSV] returns follow the first line: the text,
    once trimmed, has at least two lines; there are no more rows than
    lines after the first, a line with another number of fields than the
    first giving none; and every row has exactly the names of the first
    line, [__proto__] apart, as its property names, each once. *)
Theorem parsed_rows_follow_the_header (text : list Z) (rows : list Obj) :
  parseCSV text = Ret rows ->
  (2 <= length (split 10 (ModelSelector.trim text)))%nat
  /\ (length rows <= length (split 10 (ModelSelector.trim text)) - 1)%nat
  /\ Forall (fun row : Obj =>
               NoDup (map fst row)
               /\ forall k, k ∈ map fst row
                            <-> k ∈ fields_of (hd [] (split 10 (ModelSelector.trim text)))
                                /\ k <> lit "__proto__")
            rows.
Proof.
  unfold parseCSV.
  destruct (split 10 (ModelSelector.trim text)) as [|header [|first others]];
    try discriminate.
  intros [= <-]. cbn [hd].
  destruct (rows_of_shape (fields_of header) (first :: others)) as [Hlen Hall].
  split; [simpl; lia|]. split; [simpl in *; lia | exact Hall].
Qed.

(** A header, two good lines and two lines with one and three fields. *)
Lemma parsed_rows_follow_the_header_witness :
  parseCSV ragged = Ret [[(lit "a", lit "1"); (lit "b", lit "2")];
                         [(lit "a", lit "7"); (lit "b", lit "8")]]
  /\ (2 <= 5 - 1)%nat.
Proof.
  assert (H : parseCSV ragged = Ret [[(lit "a", lit "1"); (lit "b", lit "2")];
                                     [(lit "a", lit "7"); (lit "b", lit "8")]])
    by (vm_compute; reflexivity).
  split; [exact H|].
  destruct (parsed_rows_follow_the_header ragged _ H) as (_ & Hlen & _).
  exact Hlen.
Defined.

(** X29. [parseCSV] rejects a text exactly when it has no line feed once
    trimmed, which includes the empty text and a text with a header
    alone; the error is ['CSV must have header and data rows']. *)
Theorem csv_without_rows_is_rejected (text : list Z) :
  (parseCSV text = Throw (ErrorObject (lit "CSV must have header and data rows"))
   <-> Forall (fun c => c <> 10) (ModelSelector.trim text))
  /\ (forall e, parseCSV text = Throw e ->
                e = ErrorObject (lit "CSV must have header and data rows")).
Proof.
  unfold parseCSV. split; [split|].
  - destruct (split 10 (ModelSelector.trim text)) as [|header [|first others]] eqn:Hs;
      try discriminate.
    + exfalso. exact (split_not_nil _ _ Hs).
    + intros _. exact (split_single _ _ _ Hs).
  - intros Hplain. rewrite (split_plain 10 _ Hplain). reflexivity.
  - intros e.
    destruct (split 10 (ModelSelector.trim text)) as [|header [|first others]];
      intros [= <-]; reflexivity.
Qed.

End CsvFacts.
